(** * forymusic: the catalog server, [server.js]

    A shallow embedding of the Express handlers of [server.js] (accounts,
    tracks, the upload route, the owner check, the multer file name and the
    start-up sequence), with the properties of the persistence-and-upload
    subsystem proved or refuted on it.

    Conventions.  A JavaScript string is a [string] whose characters stand
    for code units; a field that may be [undefined] is an [option]; the
    PostgreSQL tables are lists of rows in insertion order; the disk is a
    finite set of paths; everything the handlers wait for from the outside
    (the pool, [fetch], [bcrypt], concurrent requests) is read from an
    oracle. *)

From Stdlib Require Import ZArith Ascii String Lia.
From stdpp Require Import base option strings list gmap pretty sorting.

Open Scope string_scope.
Open Scope Z_scope.

(** ** JavaScript string primitives *)

Module Js.

(** [!s] for a string: only the empty string is falsy. *)
Definition is_empty (s : string) : bool :=
  match s with EmptyString => true | String _ _ => false end.

(** [!x] for a field that is a string or [undefined]. *)
Definition falsy (x : option string) : bool :=
  match x with None => true | Some s => is_empty s end.

(** [x || d] for a string-or-undefined [x]. *)
Definition or_else (x : option string) (d : string) : string :=
  match x with
  | Some s => if is_empty s then d else s
  | None => d
  end.

(** White space as [String.prototype.trim] and [parseInt] see it, within
    the one-byte range: TAB, LF, VT, FF, CR, SPACE and the no-break space
    U+00A0. *)
Definition is_space (c : ascii) : bool :=
  let n := nat_of_ascii c in
  ((9 <=? n)%nat && (n <=? 13)%nat) || (n =? 32)%nat || (n =? 160)%nat.

Fixpoint trim_start (s : string) : string :=
  match s with
  | String c r => if is_space c then trim_start r else s
  | EmptyString => EmptyString
  end.

Fixpoint rev_onto (s acc : string) : string :=
  match s with
  | EmptyString => acc
  | String c r => rev_onto r (String c acc)
  end.

Definition rev (s : string) : string := rev_onto s EmptyString.

Definition trim_end (s : string) : string := rev (trim_start (rev s)).

(** [s.trim()] *)
Definition trim (s : string) : string := trim_end (trim_start s).

(** The lower-case form of one code unit of the one-byte range: the
    letters A-Z, and the capitals U+00C0 to U+00DE other than the
    multiplication sign U+00D7, move up by 32. *)
Definition lower_char (c : ascii) : ascii :=
  let n := nat_of_ascii c in
  if ((65 <=? n)%nat && (n <=? 90)%nat)
     || ((192 <=? n)%nat && (n <=? 222)%nat && negb (n =? 215)%nat)
  then ascii_of_nat (n + 32) else c.

(** [s.toLowerCase()] *)
Fixpoint toLowerCase (s : string) : string :=
  match s with
  | EmptyString => EmptyString
  | String c r => String (lower_char c) (toLowerCase r)
  end.

(** [s.indexOf(p) === 0] *)
Definition starts_with (p s : string) : bool := String.prefix p s.

Fixpoint drop (n : nat) (s : string) : string :=
  match n, s with
  | O, _ => s
  | S k, String _ r => drop k r
  | S _, EmptyString => EmptyString
  end.

(** [s.replace(pat, rep)] with a string pattern: the first occurrence
    only. *)
Fixpoint replace_first (pat rep s : string) : string :=
  if String.prefix pat s then rep ++ drop (String.length pat) s
  else match s with
       | EmptyString => EmptyString
       | String c r => String c (replace_first pat rep r)
       end.

Fixpoint drop_leading_slashes (s : string) : string :=
  match s with
  | String "/"%char r => drop_leading_slashes r
  | _ => s
  end.

(** [s.replace(/\/+$/, '')] *)
Definition strip_trailing_slashes (s : string) : string :=
  rev (drop_leading_slashes (rev s)).

Definition digit_of (c : ascii) : option Z :=
  let n := nat_of_ascii c in
  if ((48 <=? n)%nat && (n <=? 57)%nat)%bool then Some (Z.of_nat n - 48) else None.

(** The longest prefix of decimal digits, read as a number; [None] when
    there is no digit at all. *)
Fixpoint digits (s : string) (acc : option Z) : option Z :=
  match s with
  | String c r =>
      match digit_of c with
      | Some d => digits r (Some (10 * default 0 acc + d))
      | None => acc
      end
  | EmptyString => acc
  end.

(** [parseInt(s, 10)]: leading white space, an optional sign, then
    digits; [None] is [NaN]. *)
Definition parseInt (s : string) : option Z :=
  match trim_start s with
  | String "-"%char r => Z.opp <$> digits r None
  | String "+"%char r => digits r None
  | t => digits t None
  end.

(** [!n] for the result of [parseInt]: [NaN] and [0] are falsy. *)
Definition falsy_num (n : option Z) : bool :=
  match n with
  | None => true
  | Some z => z =? 0
  end.

End Js.

(** ** Node's [path] module (POSIX flavour)

    [path.extname] and [path.basename] are library functions; they are
    written here as the library has them, a scan of the path from its last
    code unit to its first, so that the multer file name can be evaluated. *)

Module Path.

Definition is_slash (c : ascii) : bool := Ascii.eqb c "/".
Definition is_dot (c : ascii) : bool := Ascii.eqb c ".".

(** [path.slice(a, b)] for indices that are not negative. *)
Definition slice (s : string) (a b : Z) : string :=
  substring (Z.to_nat a) (Z.to_nat (b - a)) s.

Record ExtScan := {
  startDot : Z;
  startPart : Z;
  ext_end : Z;
  ext_matchedSlash : bool;
  preDotState : Z;
  ext_break : bool
}.

Definition ext_step (c : ascii) (i : Z) (st : ExtScan) : ExtScan :=
  if is_slash c then
    if negb (ext_matchedSlash st) then
      {| startDot := startDot st; startPart := i + 1; ext_end := ext_end st;
         ext_matchedSlash := ext_matchedSlash st; preDotState := preDotState st;
         ext_break := true |}
    else st
  else
    let st1 :=
      if ext_end st =? -1 then
        {| startDot := startDot st; startPart := startPart st; ext_end := i + 1;
           ext_matchedSlash := false; preDotState := preDotState st;
           ext_break := false |}
      else st in
    if is_dot c then
      if startDot st1 =? -1 then
        {| startDot := i; startPart := startPart st1; ext_end := ext_end st1;
           ext_matchedSlash := ext_matchedSlash st1; preDotState := preDotState st1;
           ext_break := false |}
      else if negb (preDotState st1 =? 1) then
        {| startDot := startDot st1; startPart := startPart st1; ext_end := ext_end st1;
           ext_matchedSlash := ext_matchedSlash st1; preDotState := 1;
           ext_break := false |}
      else st1
    else if negb (startDot st1 =? -1) then
      {| startDot := startDot st1; startPart := startPart st1; ext_end := ext_end st1;
         ext_matchedSlash := ext_matchedSlash st1; preDotState := -1;
         ext_break := false |}
    else st1.

(** [for (let i = n - 1; i >= 0; --i)] over the code units of [p]. *)
Fixpoint ext_loop (p : string) (n : nat) (st : ExtScan) : ExtScan :=
  match n with
  | O => st
  | S i =>
      match String.get i p with
      | Some c =>
          let st' := ext_step c (Z.of_nat i) st in
          if ext_break st' then st' else ext_loop p i st'
      | None => st
      end
  end.

(** [path.extname(p)] *)
Definition extname (p : string) : string :=
  let st := ext_loop p (String.length p)
              {| startDot := -1; startPart := 0; ext_end := -1;
                 ext_matchedSlash := true; preDotState := 0; ext_break := false |} in
  if (startDot st =? -1) || (ext_end st =? -1) || (preDotState st =? 0)
     || ((preDotState st =? 1) && (startDot st =? ext_end st - 1)
         && (startDot st =? startPart st + 1))
  then ""
  else slice p (startDot st) (ext_end st).

Record BaseScan := {
  b_start : Z;
  b_end : Z;
  b_matchedSlash : bool;
  extIdx : Z;
  firstNonSlashEnd : Z;
  b_break : bool
}.

Definition char_at (s : string) (i : Z) : option ascii :=
  if i <? 0 then None else String.get (Z.to_nat i) s.

Definition base_step (suffix : string) (c : ascii) (i : Z) (st : BaseScan) : BaseScan :=
  if is_slash c then
    if negb (b_matchedSlash st) then
      {| b_start := i + 1; b_end := b_end st; b_matchedSlash := b_matchedSlash st;
         extIdx := extIdx st; firstNonSlashEnd := firstNonSlashEnd st; b_break := true |}
    else st
  else
    let st1 :=
      if firstNonSlashEnd st =? -1 then
        {| b_start := b_start st; b_end := b_end st; b_matchedSlash := false;
           extIdx := extIdx st; firstNonSlashEnd := i + 1; b_break := false |}
      else st in
    if 0 <=? extIdx st1 then
      if bool_decide (Some c = char_at suffix (extIdx st1)) then
        let e := extIdx st1 - 1 in
        {| b_start := b_start st1; b_end := (if e =? -1 then i else b_end st1);
           b_matchedSlash := b_matchedSlash st1; extIdx := e;
           firstNonSlashEnd := firstNonSlashEnd st1; b_break := false |}
      else
        {| b_start := b_start st1; b_end := firstNonSlashEnd st1;
           b_matchedSlash := b_matchedSlash st1; extIdx := -1;
           firstNonSlashEnd := firstNonSlashEnd st1; b_break := false |}
    else st1.

Fixpoint base_loop (suffix p : string) (n : nat) (st : BaseScan) : BaseScan :=
  match n with
  | O => st
  | S i =>
      match String.get i p with
      | Some c =>
          let st' := base_step suffix c (Z.of_nat i) st in
          if b_break st' then st' else base_loop suffix p i st'
      | None => st
      end
  end.

(** The loop of [basename] when no suffix is to be matched. *)
Fixpoint plain_loop (p : string) (n : nat) (st : BaseScan) : BaseScan :=
  match n with
  | O => st
  | S i =>
      match String.get i p with
      | Some c =>
          if is_slash c then
            if negb (b_matchedSlash st) then
              {| b_start := Z.of_nat i + 1; b_end := b_end st;
                 b_matchedSlash := b_matchedSlash st; extIdx := extIdx st;
                 firstNonSlashEnd := firstNonSlashEnd st; b_break := true |}
            else plain_loop p i st
          else if b_end st =? -1 then
            plain_loop p i
              {| b_start := b_start st; b_end := Z.of_nat i + 1; b_matchedSlash := false;
                 extIdx := extIdx st; firstNonSlashEnd := firstNonSlashEnd st;
                 b_break := false |}
          else plain_loop p i st
      | None => st
      end
  end.

(** [path.basename(p, suffix)] *)
Definition basename (p suffix : string) : string :=
  let len := String.length p in
  let slen := String.length suffix in
  if ((0 <? slen)%nat && (slen <=? len)%nat)%bool then
    if String.eqb suffix p then ""
    else
      let st := base_loop suffix p len
                  {| b_start := 0; b_end := -1; b_matchedSlash := true;
                     extIdx := Z.of_nat slen - 1; firstNonSlashEnd := -1;
                     b_break := false |} in
      let e := if b_start st =? b_end st then firstNonSlashEnd st
               else if b_end st =? -1 then Z.of_nat len
               else b_end st in
      slice p (b_start st) e
  else
    let st := plain_loop p len
                {| b_start := 0; b_end := -1; b_matchedSlash := true;
                   extIdx := -1; firstNonSlashEnd := -1; b_break := false |} in
    if b_end st =? -1 then "" else slice p (b_start st) (b_end st).

End Path.

(** ** Data model *)

(** A JSON value, as [express.json()] hands it to a handler and as a JSONB
    column stores it. *)
#[local] Set Warnings "-register-all".
Inductive Json :=
| JNull
| JBool (b : bool)
| JNum (n : Z)
| JStr (s : string)
| JArr (items : list Json)
| JObj (fields : list (string * Json)).
#[local] Set Warnings "register-all".

(** [Array.isArray(v)], where [None] is [undefined]. *)
Definition isArray (v : option Json) : bool :=
  match v with
  | Some (JArr _) => true
  | _ => false
  end.

(** [v || []] for a column value, where [None] is SQL NULL. *)
Definition json_or_empty (v : option Json) : Json :=
  match v with
  | None | Some JNull | Some (JBool false) | Some (JNum 0) | Some (JStr "") => JArr []
  | Some j => j
  end.

(** A row of [users]. *)
Record User := {
  u_id : Z;
  u_email : string;
  u_password : string;
  u_likes : option Json;
  u_playlists : option Json
}.

(** A row of [tracks]. *)
Record Track := {
  t_id : Z;
  t_title : string;
  t_artist : option string;
  t_url : string
}.

(** The database: both tables in insertion order, and the last value of the
    [SERIAL] sequence of [tracks]. *)
Record Db := {
  users : list User;
  tracks : list Track;
  tracks_seq : Z
}.

(** What a handler can touch: the database behind the pool, the files on
    disk, and the lines written with [console.error] and [console.log]. *)
Record World := {
  db : Db;
  fs : gset string;
  console : list string
}.

Definition with_db (d : Db) (w : World) : World :=
  {| db := d; fs := fs w; console := console w |}.

Definition with_fs (f : gset string) (w : World) : World :=
  {| db := db w; fs := f; console := console w |}.

Definition console_error (line : string) (w : World) : World :=
  {| db := db w; fs := fs w; console := console w ++ [line] |}.

(** The error object a rejected query or a failed call carries. *)
Record JsError := {
  err_code : string;
  err_message : string
}.

(** What [await fetch(...)] gives: a response with its status and the
    outcome of [resp.text()], or an exception. *)
Inductive FetchOutcome :=
| FetchResponse (status : Z) (text : option string)
| FetchThrows (e : JsError).

(** [resp.ok] *)
Definition resp_ok (status : Z) : bool := (200 <=? status) && (status <=? 299).

(** What [await bcrypt.compare(data, hash)] gives. *)
Inductive CompareOutcome :=
| Resolves (same : bool)
| Rejects (e : JsError).

(** Everything one request reads from outside the handler: whether the
    k-th query it sends is rejected, what concurrent requests have written
    by the time that query runs, the answer of [fetch] for a URL, and the
    clock. *)
Record Oracle := {
  db_fault : nat → option JsError;
  concurrent : nat → Db → Db;
  fetch : string → FetchOutcome;
  now : N
}.

(** The statements of [initDb], in the order the function sends them. *)
Inductive Ddl := CreateUsers | CreateTracks | AddLikesColumn | AddPlaylistsColumn.

Definition initDb_statements : list Ddl :=
  [CreateUsers; CreateTracks; AddLikesColumn; AddPlaylistsColumn].

(** *** SQL statements, as functions on the database *)

Module Sql.

(** [SELECT ... FROM users WHERE email = $1] *)
Definition select_user_by_email (email : string) (d : Db) : list User * Db :=
  (filter (λ u, u_email u = email) (users d), d).

Definition set_likes (likes : Json) (id : Z) (u : User) : User :=
  if bool_decide (u_id u = id)
  then {| u_id := u_id u; u_email := u_email u; u_password := u_password u;
          u_likes := Some likes; u_playlists := u_playlists u |}
  else u.

Definition set_playlists (playlists : Json) (id : Z) (u : User) : User :=
  if bool_decide (u_id u = id)
  then {| u_id := u_id u; u_email := u_email u; u_password := u_password u;
          u_likes := u_likes u; u_playlists := Some playlists |}
  else u.

Definition count_users (id : Z) (d : Db) : nat :=
  length (filter (λ u, u_id u = id) (users d)).

(** [UPDATE users SET likes = $1::jsonb WHERE id = $2]; the result is
    [rowCount]. *)
Definition update_likes (likes : Json) (id : Z) (d : Db) : nat * Db :=
  (count_users id d,
   {| users := set_likes likes id <$> users d; tracks := tracks d;
      tracks_seq := tracks_seq d |}).

(** [UPDATE users SET playlists = $1::jsonb WHERE id = $2] *)
Definition update_playlists (playlists : Json) (id : Z) (d : Db) : nat * Db :=
  (count_users id d,
   {| users := set_playlists playlists id <$> users d; tracks := tracks d;
      tracks_seq := tracks_seq d |}).

(** [INSERT INTO tracks (title, artist, url) VALUES ($1,$2,$3) RETURNING id] *)
Definition insert_track (title : string) (artist : option string) (url : string)
    (d : Db) : Z * Db :=
  let id := tracks_seq d + 1 in
  (id,
   {| users := users d;
      tracks := tracks d ++ [{| t_id := id; t_title := title; t_artist := artist;
                                t_url := url |}];
      tracks_seq := id |}).

Definition set_title_artist (title : string) (artist : option string) (id : Z)
    (t : Track) : Track :=
  if bool_decide (t_id t = id)
  then {| t_id := t_id t; t_title := title; t_artist := artist; t_url := t_url t |}
  else t.

Definition count_tracks (id : Z) (d : Db) : nat :=
  length (filter (λ t, t_id t = id) (tracks d)).

(** [UPDATE tracks SET title = $1, artist = $2 WHERE id = $3] *)
Definition update_track (title : string) (artist : option string) (id : Z)
    (d : Db) : nat * Db :=
  (count_tracks id d,
   {| users := users d; tracks := set_title_artist title artist id <$> tracks d;
      tracks_seq := tracks_seq d |}).

(** [SELECT url FROM tracks WHERE id = $1] *)
Definition select_track_url (id : Z) (d : Db) : list string * Db :=
  (t_url <$> filter (λ t, t_id t = id) (tracks d), d).

(** [DELETE FROM tracks WHERE id = $1] *)
Definition delete_track (id : Z) (d : Db) : nat * Db :=
  (count_tracks id d,
   {| users := users d; tracks := filter (λ t, t_id t ≠ id) (tracks d);
      tracks_seq := tracks_seq d |}).

(** SQLSTATE 23505, the rejection of a row that would break the primary
    key or the [UNIQUE] constraint the tables are created with. *)
Definition unique_violation (constraint : string) : JsError :=
  {| err_code := "23505";
     err_message := "duplicate key value violates unique constraint " ++ constraint |}.

(** [INSERT INTO users (email, password, likes, playlists) VALUES
    ($1,$2,$3::jsonb,$4::jsonb) RETURNING id, email, likes, playlists]
    with both collections [[]].  [id] is the value the sequence behind
    [users.id] hands to this statement; the sequence is not part of [Db].
    [id SERIAL PRIMARY KEY] and [email TEXT UNIQUE] reject a second row
    with the same key. *)
Definition insert_user (id : Z) (email password : string) (d : Db)
    : (JsError + User) * Db :=
  if bool_decide (id ∈ u_id <$> users d) then (inl (unique_violation "users_pkey"), d)
  else if bool_decide (email ∈ u_email <$> users d)
  then (inl (unique_violation "users_email_key"), d)
  else
    let row := {| u_id := id; u_email := email; u_password := password;
                  u_likes := Some (JArr []); u_playlists := Some (JArr []) |} in
    (inr row,
     {| users := users d ++ [row]; tracks := tracks d; tracks_seq := tracks_seq d |}).

(** [SELECT id, email, likes, playlists FROM users WHERE id = $1] *)
Definition select_user_by_id (id : Z) (d : Db) : list User * Db :=
  (filter (λ u, u_id u = id) (users d), d).

(** [ORDER BY id DESC] *)
Definition newer_first (a b : Track) : Prop := t_id b ≤ t_id a.

#[global] Instance newer_first_dec : RelDecision newer_first.
Proof. intros a b. unfold newer_first. apply _. Defined.

(** [SELECT id, title, artist, url FROM tracks ORDER BY id DESC]; rows
    with the same id, which the primary key rules out, would keep their
    table order. *)
Definition select_tracks_desc (d : Db) : list Track * Db :=
  (merge_sort newer_first (tracks d), d).

End Sql.

(** [await pool.query(...)], the k-th of a request: the writes of
    concurrent requests land first; then the statement either runs or the
    promise rejects. *)
Definition pool_query {A : Type} (o : Oracle) (k : nat) (stmt : Db → A * Db)
    (w : World) : (JsError + A) * World :=
  let d := concurrent o k (db w) in
  match db_fault o k with
  | Some e => (inl e, with_db d w)
  | None => let '(r, d') := stmt d in (inr r, with_db d' w)
  end.

(** *** The schema, as the statements of [initDb] see it *)

(** The tables that exist, each with the names of its columns. *)
Abbreviation Schema := (gmap string (gset string)).

(** SQLSTATE 42P01. *)
Definition undefined_table (t : string) : JsError :=
  {| err_code := "42P01"; err_message := "relation " ++ t ++ " does not exist" |}.

(** [CREATE TABLE IF NOT EXISTS t (...)]: a table of that name, whatever
    its columns, is left alone. *)
Definition create_table_if_not_exists (t : string) (cols : gset string) (sc : Schema)
    : Schema :=
  match sc !! t with
  | Some _ => sc
  | None => <[t := cols]> sc
  end.

(** [ALTER TABLE t ADD COLUMN IF NOT EXISTS c ...] *)
Definition add_column_if_not_exists (t c : string) (sc : Schema) : JsError + Schema :=
  match sc !! t with
  | Some cols => inr (<[t := {[c]} ∪ cols]> sc)
  | None => inl (undefined_table t)
  end.

(** One statement of [initDb] on a schema. *)
Definition ddl_apply (s : Ddl) (sc : Schema) : JsError + Schema :=
  match s with
  | CreateUsers =>
      inr (create_table_if_not_exists "users" {["id"; "email"; "password"]} sc)
  | CreateTracks =>
      inr (create_table_if_not_exists "tracks" {["id"; "title"; "artist"; "url"]} sc)
  | AddLikesColumn => add_column_if_not_exists "users" "likes" sc
  | AddPlaylistsColumn => add_column_if_not_exists "users" "playlists" sc
  end.

(** The statements one after the other on a schema; a rejection, by the
    connection ([fault]) or by the statement itself, ends the run. *)
Fixpoint migrate (fault : Ddl → option JsError) (todo : list Ddl) (sc : Schema)
    : Schema * option JsError :=
  match todo with
  | [] => (sc, None)
  | s :: rest =>
      match fault s with
      | Some e => (sc, Some e)
      | None =>
          match ddl_apply s sc with
          | inl e => (sc, Some e)
          | inr sc' => migrate fault rest sc'
          end
      end
  end.

(** [initDb()] on a database whose schema is [sc]. *)
Definition initDb_on (fault : Ddl → option JsError) (sc : Schema)
    : Schema * option JsError :=
  migrate fault initDb_statements sc.

(** Every table of [sc1] is in [sc2] with at least the same columns. *)
Definition schema_le (sc1 sc2 : Schema) : Prop :=
  ∀ t cols, sc1 !! t = Some cols → ∃ cols', sc2 !! t = Some cols' ∧ cols ⊆ cols'.

(** *** The file system *)

(** [fs.unlinkSync(p)]: fails with ENOENT when there is no such file. *)
Definition unlinkSync (p : string) (w : World) : (JsError + unit) * World :=
  if bool_decide (p ∈ fs w)
  then (inr (), with_fs (fs w ∖ {[p]}) w)
  else (inl {| err_code := "ENOENT";
               err_message := "ENOENT: no such file or directory, unlink '" ++ p ++ "'" |},
        w).

(** [fs.unlink(p, () => {})]: the same removal, its outcome handed to a
    callback that ignores it. *)
Definition unlink_ignore (p : string) (w : World) : World :=
  (unlinkSync p w).2.

(** [fs.readFileSync(p)]: the bytes are not modelled, only whether the
    read succeeds. *)
Definition readFileSync (p : string) (w : World) : JsError + unit :=
  if bool_decide (p ∈ fs w)
  then inr ()
  else inl {| err_code := "ENOENT";
              err_message := "ENOENT: no such file or directory, open '" ++ p ++ "'" |}.

(** *** Requests and responses *)

(** [req.file], as multer leaves it. *)
Record File := {
  f_path : string;
  f_filename : string;
  f_mimetype : option string
}.

(** The fields the handlers read from [req.body]. *)
Record Body := {
  adminPassword : option string;
  title : option string;
  artist : option string;
  url : option string;
  email : option string;
  password : option string;
  likes : option Json;
  playlists : option Json
}.

Record Request := {
  params_id : string;
  x_admin_password : option string;
  body : Body;
  file : option File
}.

(** The JSON bodies the handlers send. *)
Inductive Payload :=
| PError (error : string)
| PUser (id : Z) (email : string) (likes playlists : Json)
| PSuccess
| PLikes (likes : Json)
| PPlaylists (playlists : Json)
| PTrack (id : Z) (title : string) (artist : option string) (url : string)
| PUpdated (id : Z) (title : string) (artist : option string).

Record Response := {
  status : Z;
  payload : Payload
}.

(** [res.json(p)] *)
Definition json (p : Payload) : Response := {| status := 200; payload := p |}.

(** [res.status(s).json({ error: msg })] *)
Definition fail (s : Z) (msg : string) : Response :=
  {| status := s; payload := PError msg |}.

(** ** The multer storage: the name of the staged file *)

Module Multer.

(** The class [[a-zA-Z0-9_\-]] of the file-name pattern. *)
Definition safe_char (c : ascii) : bool :=
  let n := nat_of_ascii c in
  ((97 <=? n)%nat && (n <=? 122)%nat)
  || ((65 <=? n)%nat && (n <=? 90)%nat)
  || ((48 <=? n)%nat && (n <=? 57)%nat)
  || (n =? 95)%nat || (n =? 45)%nat.

(** [s.replace(/[^a-zA-Z0-9_\-]/g, '_')] *)
Fixpoint sanitize (s : string) : string :=
  match s with
  | EmptyString => EmptyString
  | String c r => String (if safe_char c then c else "_"%char) (sanitize r)
  end.

(** The [filename] callback of [multer.diskStorage]; [now] is
    [Date.now()]. *)
Definition filename (now : N) (originalname : string) : string :=
  let ext := Js.or_else (Some (Path.extname originalname)) ".mp3" in
  let base := sanitize (Path.basename originalname ext) in
  pretty now ++ "_" ++ base ++ ext.

(** Every code unit of [s] is in the safe class. *)
Fixpoint all_safe (s : string) : bool :=
  match s with
  | EmptyString => true
  | String c r => safe_char c && all_safe r
  end.

(** A staged name is clean when it is a safe stem followed by an
    extension that is a dot and safe code units. *)
Fixpoint clean_name (s : string) : bool :=
  match s with
  | EmptyString => false
  | String c r => if Path.is_dot c then all_safe r else safe_char c && clean_name r
  end.

End Multer.

(** No code unit of [s] is the path separator. *)
Fixpoint slash_free (s : string) : bool :=
  match s with
  | EmptyString => true
  | String c r => negb (Path.is_slash c) && slash_free r
  end.

(** The invariant of the scan of [path.extname] once the code units from
    [b] on have been read: what lies between [b] and [ext_end] is free of
    separators, and [startDot], when set, is a dot in that stretch. *)
Definition scan_inv (p : string) (b : Z) (st : Path.ExtScan) : Prop :=
  0 ≤ b
  ∧ (Path.ext_matchedSlash st = true → Path.ext_end st = -1)
  ∧ (Path.ext_end st ≠ -1 → b ≤ Path.ext_end st)
  ∧ (∀ j : nat, b ≤ Z.of_nat j < Path.ext_end st →
       ∀ c, String.get j p = Some c → Path.is_slash c = false)
  ∧ (Path.startDot st ≠ -1 →
       b ≤ Path.startDot st < Path.ext_end st
       ∧ String.get (Z.to_nat (Path.startDot st)) p = Some "."%char).

(** ** Sample data

    A small deployment used to run the handlers on concrete requests. *)

Module Sample.

Definition secret : string := "s3cret".

(** [process.env] with only the admin password set: uploads stay on the
    local disk. *)
Definition env_local (k : string) : option string :=
  if String.eqb k "ADMIN_PASSWORD" then Some secret else None.

(** [process.env] with Supabase Storage configured as well. *)
Definition env_supabase (k : string) : option string :=
  if String.eqb k "ADMIN_PASSWORD" then Some secret
  else if String.eqb k "SUPABASE_URL" then Some "https://proj.supabase.co/"
  else if String.eqb k "SUPABASE_SERVICE_KEY" then Some "eyJhbGciOiJIUzI1NiJ9"
  else None.

Definition app_dir : string := "/app".

(** [path.join] on segments that need no normalisation. *)
Definition join (a b : string) : string := a ++ "/" ++ b.

(** A stand-in for bcrypt: the hash is the password behind a fixed prefix;
    a missing password makes the promise reject, as the library does. *)
Definition compare (data : option string) (hash : string) : CompareOutcome :=
  match data with
  | Some p => Resolves (String.eqb ("$2b$10$" ++ p) hash)
  | None => Rejects {| err_code := ""; err_message := "data and hash arguments required" |}
  end.

(** Nothing goes wrong and nobody else is writing. *)
Definition quiet : Oracle :=
  {| db_fault := λ _, None;
     concurrent := λ _ d, d;
     fetch := λ _, FetchResponse 200 (Some "{}");
     now := 1700000000000 |}.

(** The object store answers 503. *)
Definition storage_down : Oracle :=
  {| db_fault := λ _, None;
     concurrent := λ _ d, d;
     fetch := λ _, FetchResponse 503 (Some "unavailable");
     now := 1700000000000 |}.

(** Another request deletes track 7 between the first and the second
    query. *)
Definition racing : Oracle :=
  {| db_fault := λ _, None;
     concurrent := λ k d, if (k =? 1)%nat then (Sql.delete_track 7 d).2 else d;
     fetch := λ _, FetchResponse 200 (Some "{}");
     now := 1700000000000 |}.

(** The database cannot be reached: every DDL statement is rejected. *)
Definition ddl_down (s : Ddl) : option JsError :=
  Some {| err_code := "ECONNREFUSED"; err_message := "connect ECONNREFUSED" |}.

(** The tables can be created, the first column migration is rejected. *)
Definition migration_fails (s : Ddl) : option JsError :=
  match s with
  | AddLikesColumn =>
      Some {| err_code := "42501"; err_message := "must be owner of table users" |}
  | _ => None
  end.

Definition empty_body : Body :=
  {| adminPassword := None; title := None; artist := None; url := None;
     email := None; password := None; likes := None; playlists := None |}.

Definition staged_path : string := "/app/uploads/1700000000000_demo.mp3".

Definition staged : File :=
  {| f_path := staged_path; f_filename := "1700000000000_demo.mp3";
     f_mimetype := Some "audio/mpeg" |}.

Definition catalog : Db :=
  {| users := [{| u_id := 1; u_email := "ann@example.com"; u_password := "$2b$10$pw";
                  u_likes := Some (JArr [JStr "7"]); u_playlists := Some (JArr []) |}];
     tracks := [{| t_id := 7; t_title := "Lofi Morning"; t_artist := Some "Beat Studio";
                   t_url := "/uploads/1700000000000_demo.mp3" |};
                {| t_id := 8; t_title := "City Night Drive"; t_artist := Some "Neon Waves";
                   t_url := "https://www.soundhelix.com/examples/mp3/SoundHelix-Song-2.mp3" |}];
     tracks_seq := 8 |}.

(** The catalog, with the file of track 7 on disk. *)
Definition world : World :=
  {| db := catalog; fs := {[staged_path]}; console := [] |}.

(** The same catalog after the file of track 7 has gone missing. *)
Definition world_no_file : World :=
  {| db := catalog; fs := ∅; console := [] |}.

(** An upload carrying [title] and the token [token] in its body, the
    file part already staged by multer. *)
Definition upload_request (token : option string) (title : string) : Request :=
  {| params_id := ""; x_admin_password := None;
     body := {| adminPassword := token; title := Some title; artist := Some "Beat Studio";
                url := None; email := None; password := None; likes := None;
                playlists := None |};
     file := Some staged |}.

(** An upload whose only token is the [x-admin-password] header. *)
Definition upload_request_header_token : Request :=
  {| params_id := ""; x_admin_password := Some secret;
     body := {| adminPassword := None; title := Some "Lofi Morning";
                artist := Some "Beat Studio"; url := None; email := None; password := None;
                likes := None; playlists := None |};
     file := Some staged |}.

(** [DELETE /api/tracks/<id>] with the secret in the header. *)
Definition delete_request (id : string) : Request :=
  {| params_id := id; x_admin_password := Some secret; body := empty_body; file := None |}.

(** [PUT /api/user/<id>/likes] and [.../playlists] with one collection for
    both fields. *)
Definition collection_request (id : string) (items : list Json) : Request :=
  {| params_id := id; x_admin_password := None;
     body := {| adminPassword := None; title := None; artist := None; url := None;
                email := None; password := None; likes := Some (JArr items);
                playlists := Some (JArr items) |};
     file := None |}.

Definition login_request (e p : string) : Request :=
  {| params_id := ""; x_admin_password := None;
     body := {| adminPassword := None; title := None; artist := None; url := None;
                email := Some e; password := Some p; likes := None; playlists := None |};
     file := None |}.

(** A stand-in for [bcrypt.hash], the counterpart of [compare]. *)
Definition hash (p : string) : JsError + string := inr ("$2b$10$" ++ p).

(** A request whose body carries [email] and [password], either of
    which may be missing. *)
Definition account_request (e p : option string) : Request :=
  {| params_id := ""; x_admin_password := None;
     body := {| adminPassword := None; title := None; artist := None; url := None;
                email := e; password := p; likes := None; playlists := None |};
     file := None |}.

(** A request on [/api/user/<id>] or [/api/tracks/<id>] with an empty
    body. *)
Definition id_request (id : string) : Request :=
  {| params_id := id; x_admin_password := None; body := empty_body; file := None |}.

(** A request of the owner on [/api/tracks] or [/api/tracks/<id>]. *)
Definition track_request (id : string) (t a u : option string) : Request :=
  {| params_id := id; x_admin_password := None;
     body := {| adminPassword := Some secret; title := t; artist := a; url := u;
                email := None; password := None; likes := None; playlists := None |};
     file := None |}.

(** A database that already has a [users] table from an earlier
    version, without the collection columns, and no [tracks] table. *)
Definition old_schema : gmap string (gset string) :=
  {["users" := {["id"; "email"; "password"; "created_at"]}]}.

End Sample.

(** ** The server *)

Section Server.

(** [process.env] *)
Variable env : string → option string.
(** [__dirname] *)
Variable dirname : string.
(** [path.join(a, b)], for the two places that build a file path. *)
Variable path_join : string → string → string.
(** [bcrypt.compare(data, hash)] *)
Variable bcrypt_compare : option string → string → CompareOutcome.

Definition ADMIN_PASSWORD : string := Js.or_else (env "ADMIN_PASSWORD") "dev-admin-password".
Definition SUPABASE_URL : string := Js.or_else (env "SUPABASE_URL") "".
Definition SUPABASE_SERVICE_KEY : string := Js.or_else (env "SUPABASE_SERVICE_KEY") "".
Definition SUPABASE_BUCKET : string := Js.or_else (env "SUPABASE_BUCKET") "music".

Definition uploadsDir : string := path_join dirname "uploads".

(** [upload.single('file')]: when the request has a file part, multer
    writes it under [uploadsDir] and sets [req.file]. *)
Definition upload_single (o : Oracle) (part : option (string * option string))
    (req : Request) (w : World) : Request * World :=
  match part with
  | None => (req, w)
  | Some (originalname, mimetype) =>
      let name := Multer.filename (now o) originalname in
      let p := path_join uploadsDir name in
      ({| params_id := params_id req; x_admin_password := x_admin_password req;
          body := body req;
          file := Some {| f_path := p; f_filename := name; f_mimetype := mimetype |} |},
       with_fs ({[p]} ∪ fs w) w)
  end.

Definition forbidden : Response := fail 403 "Нет прав. Неверный admin-пароль.".

(** [requireOwner]: [None] stands for the call of [next()]. *)
Definition requireOwner (req : Request) : option Response :=
  let adminPassword :=
    Js.or_else (adminPassword (body req)) (Js.or_else (x_admin_password req) "") in
  if Js.is_empty adminPassword || negb (String.eqb adminPassword ADMIN_PASSWORD)
  then Some forbidden
  else None.

(** A route declared with [requireOwner] before its handler. *)
Definition owner_only (handler : Oracle → Request → World → Response * World)
    (o : Oracle) (req : Request) (w : World) : Response * World :=
  match requireOwner req with
  | Some r => (r, w)
  | None => handler o req w
  end.

(** [x || null] *)
Definition or_null (x : option string) : option string :=
  if Js.falsy x then None else x.

Definition invalid_credentials : Response := fail 401 "Неверный email или пароль".

(** [POST /api/login] *)
Definition login (o : Oracle) (req : Request) (w : World) : Response * World :=
  match email (body req) with
  | None =>
      let msg := "Cannot read properties of undefined (reading 'toLowerCase')" in
      (fail 500 ("Ошибка БД: " ++ msg),
       console_error ("DB error (POST /api/login): " ++ msg) w)
  | Some e =>
      let lowered := Js.toLowerCase e in
      match pool_query o 0 (Sql.select_user_by_email lowered) w with
      | (inl err, w1) =>
          (fail 500 ("Ошибка БД: " ++ err_message err),
           console_error ("DB error (POST /api/login): " ++ err_message err) w1)
      | (inr [], w1) => (invalid_credentials, w1)
      | (inr (user :: _), w1) =>
          match bcrypt_compare (password (body req)) (u_password user) with
          | Rejects err =>
              (fail 500 ("Ошибка БД: " ++ err_message err),
               console_error ("DB error (POST /api/login): " ++ err_message err) w1)
          | Resolves false => (invalid_credentials, w1)
          | Resolves true =>
              (json (PUser (u_id user) (u_email user)
                       (json_or_empty (u_likes user)) (json_or_empty (u_playlists user))),
               w1)
          end
      end
  end.

(** [PUT /api/user/:id/likes] *)
Definition put_likes (o : Oracle) (req : Request) (w : World) : Response * World :=
  let userId := Js.parseInt (params_id req) in
  if Js.falsy_num userId then (fail 400 "id обязателен", w)
  else
    match likes (body req) with
    | Some (JArr items) =>
        match pool_query o 0 (Sql.update_likes (JArr items) (default 0 userId)) w with
        | (inl err, w1) =>
            (fail 500 ("Ошибка БД: " ++ err_message err),
             console_error ("DB error (PUT /api/user/:id/likes): " ++ err_message err) w1)
        | (inr _, w1) => (json (PLikes (JArr items)), w1)
        end
    | _ => (fail 400 "likes должен быть массивом", w)
    end.

(** [PUT /api/user/:id/playlists] *)
Definition put_playlists (o : Oracle) (req : Request) (w : World) : Response * World :=
  let userId := Js.parseInt (params_id req) in
  if Js.falsy_num userId then (fail 400 "id обязателен", w)
  else
    match playlists (body req) with
    | Some (JArr items) =>
        match pool_query o 0 (Sql.update_playlists (JArr items) (default 0 userId)) w with
        | (inl err, w1) =>
            (fail 500 ("Ошибка БД: " ++ err_message err),
             console_error ("DB error (PUT /api/user/:id/playlists): " ++ err_message err) w1)
        | (inr _, w1) => (json (PPlaylists (JArr items)), w1)
        end
    | _ => (fail 400 "playlists должен быть массивом", w)
    end.

(** The handler of [POST /api/tracks]. *)
Definition post_track (o : Oracle) (req : Request) (w : World) : Response * World :=
  if Js.falsy (title (body req)) || Js.falsy (url (body req))
  then (fail 400 "title и url обязательны", w)
  else
    let title := default "" (title (body req)) in
    let url := default "" (url (body req)) in
    match pool_query o 0 (Sql.insert_track title (or_null (artist (body req))) url) w with
    | (inl err, w1) =>
        (fail 500 ("Ошибка БД: " ++ err_message err),
         console_error ("DB error (POST /api/tracks): " ++ err_message err) w1)
    | (inr id, w1) => (json (PTrack id title (artist (body req)) url), w1)
    end.

(** The handler of [PUT /api/tracks/:id]. *)
Definition put_track (o : Oracle) (req : Request) (w : World) : Response * World :=
  let trackId := Js.parseInt (params_id req) in
  if Js.falsy_num trackId || Js.falsy (title (body req))
  then (fail 400 "id и title обязательны", w)
  else
    let title := default "" (title (body req)) in
    match pool_query o 0
            (Sql.update_track title (or_null (artist (body req))) (default 0 trackId)) w with
    | (inl err, w1) =>
        (fail 500 ("Ошибка БД: " ++ err_message err),
         console_error ("DB error (PUT /api/tracks/:id): " ++ err_message err) w1)
    | (inr O, w1) => (fail 404 "Трек не найден", w1)
    | (inr _, w1) => (json (PUpdated (default 0 trackId) title (artist (body req))), w1)
    end.

(** The address of the file behind a local [url], as the delete handler
    builds it. *)
Definition local_file (url : string) : string :=
  path_join dirname (Js.replace_first "/uploads/" "uploads/" url).

(** [rows[0]] of the lookup the delete handler starts with. *)
Definition lookup_url (id : Z) (d : Db) : option string :=
  head (Sql.select_track_url id d).1.

Definition not_found : Response := fail 404 "Трек не найден".

(** The handler of [DELETE /api/tracks/:id]. *)
Definition delete_track (o : Oracle) (req : Request) (w : World) : Response * World :=
  let trackId := Js.parseInt (params_id req) in
  if Js.falsy_num trackId then (fail 400 "id обязателен", w)
  else
    match pool_query o 0 (Sql.select_track_url (default 0 trackId)) w with
    | (inl err, w1) =>
        (fail 500 ("Ошибка БД при удалении: " ++ err_message err),
         console_error ("DB error (DELETE /api/tracks/:id): " ++ err_message err) w1)
    | (inr [], w1) => (fail 404 "Трек не найден", w1)
    | (inr (row_url :: _), w1) =>
        match pool_query o 1 (Sql.delete_track (default 0 trackId)) w1 with
        | (inl err, w2) =>
            (fail 500 ("Ошибка БД при удалении: " ++ err_message err),
             console_error ("DB error (DELETE /api/tracks/:id): " ++ err_message err) w2)
        | (inr O, w2) => (fail 404 "Трек не найден", w2)
        | (inr _, w2) =>
            let w3 :=
              if negb (Js.is_empty row_url) && Js.starts_with "/uploads/" row_url
              then unlink_ignore (local_file row_url) w2
              else w2 in
            (json PSuccess, w3)
        end
    end.

(** *** The upload route *)

(** The [catch (e)] block of the offload. *)
Definition offload_catch (e : JsError) (w : World) : (Response + string) * World :=
  (inl (fail 500 ("Ошибка при загрузке файла в Supabase Storage: " ++ err_message e)),
   console_error ("Supabase Storage exception: " ++ err_message e) w).

(** The [try] block of the offload: read the staged file, send it to
    [uploadUrl]; the result is an early response or the public URL. *)
Definition offload_try (o : Oracle) (uploadUrl storagePath localPath : string)
    (w : World) : (Response + string) * World :=
  match readFileSync localPath w with
  | inl e => offload_catch e w
  | inr _ =>
      let w1 :=
        if negb (Js.starts_with "sb_secret_" SUPABASE_SERVICE_KEY)
           && negb (Js.starts_with "eyJ" SUPABASE_SERVICE_KEY)
        then console_error
               "SUPABASE_SERVICE_KEY format issue - should start with sb_secret_ or eyJ" w
        else w in
      match fetch o uploadUrl with
      | FetchThrows e => offload_catch e w1
      | FetchResponse st body_text =>
          if negb (resp_ok st) then
            let text := default "" body_text in
            (inl (fail 500 ("Не удалось загрузить файл в Supabase Storage: " ++ text)),
             console_error ("Key prefix: " ++ substring 0 20 SUPABASE_SERVICE_KEY ++ "...")
               (console_error ("Upload URL: " ++ uploadUrl)
                  (console_error
                     ("Supabase Storage upload error: " ++ pretty st ++ " " ++ text) w1)))
          else
            (inr (Js.strip_trailing_slashes SUPABASE_URL
                  ++ "/storage/v1/object/public/" ++ storagePath),
             w1)
      end
  end.

(** [SUPABASE_URL && SUPABASE_SERVICE_KEY] *)
Definition storage_configured : bool :=
  negb (Js.is_empty SUPABASE_URL) && negb (Js.is_empty SUPABASE_SERVICE_KEY).

(** The address the staged file is sent to. *)
Definition upload_url (fileName : string) : string :=
  Js.strip_trailing_slashes SUPABASE_URL ++ "/storage/v1/object/"
  ++ (SUPABASE_BUCKET ++ "/" ++ fileName).

(** The [if (SUPABASE_URL && SUPABASE_SERVICE_KEY) { try .. catch ..
    finally .. }] statement: with storage configured the [finally] block
    unlinks the staged file on every way out; without it [finalUrl] keeps
    its initial value and nothing else happens. *)
Definition offload (o : Oracle) (f : File) (w : World) : (Response + string) * World :=
  let localPath := f_path f in
  let fileName := f_filename f in
  if storage_configured then
    let storagePath := SUPABASE_BUCKET ++ "/" ++ fileName in
    let '(r, w1) := offload_try o (upload_url fileName) storagePath localPath w in
    (r, unlink_ignore localPath w1)
  else (inr ("/uploads/" ++ fileName), w).

(** The offload of [f] fails: the staged file cannot be read, [fetch]
    throws, or the response is not a 2xx one. *)
Definition offload_failed (o : Oracle) (f : File) (w : World) : bool :=
  match readFileSync (f_path f) w with
  | inl _ => true
  | inr _ =>
      match fetch o (upload_url (f_filename f)) with
      | FetchThrows _ => true
      | FetchResponse st _ => negb (resp_ok st)
      end
  end.

(** The last [try .. catch] of the upload handler: the insert and the
    answer. *)
Definition record_upload (o : Oracle) (title artist finalUrl : string) (w : World)
    : Response * World :=
  match pool_query o 0 (Sql.insert_track title (or_null (Some artist)) finalUrl) w with
  | (inl err, w2) =>
      (fail 500 ("Ошибка БД: " ++ err_message err),
       console_error ("DB error (POST /api/tracks/upload): " ++ err_message err) w2)
  | (inr id, w2) => (json (PTrack id title (Some artist) finalUrl), w2)
  end.

(** The handler of [POST /api/tracks/upload], after [upload.single]. *)
Definition upload (o : Oracle) (req : Request) (w : World) : Response * World :=
  let token := adminPassword (body req) in
  if Js.falsy token || negb (bool_decide (token = Some ADMIN_PASSWORD)) then
    let w1 := match file req with
              | Some f => (unlinkSync (f_path f) w).2
              | None => w
              end in
    (forbidden, w1)
  else
    let title := Js.trim (Js.or_else (title (body req)) "") in
    let artist := Js.trim (Js.or_else (artist (body req)) "") in
    if Js.is_empty title then (fail 400 "title обязателен", w)
    else
      match file req with
      | None => (fail 400 "Нужен audio-файл (поле file)", w)
      | Some f =>
          match offload o f w with
          | (inl resp, w1) => (resp, w1)
          | (inr finalUrl, w1) => record_upload o title artist finalUrl w1
          end
      end.

(** [POST /api/tracks/upload]: multer first, then the handler. *)
Definition post_upload (o : Oracle) (part : option (string * option string))
    (req : Request) (w : World) : Response * World :=
  let '(req1, w1) := upload_single o part req w in
  upload o req1 w1.

(** *** Start-up *)

(** [await pool.query(ddl)] one statement after the other: the first
    rejection ends the function; the result is the statements that ran
    and the error, if any. *)
Fixpoint run_ddl (fault : Ddl → option JsError) (todo : list Ddl)
    : list Ddl * option JsError :=
  match todo with
  | [] => ([], None)
  | s :: rest =>
      match fault s with
      | Some e => ([], Some e)
      | None => let '(ran, r) := run_ddl fault rest in (s :: ran, r)
      end
  end.

Definition initDb (fault : Ddl → option JsError) : list Ddl * option JsError :=
  run_ddl fault initDb_statements.

(** The process once the module has been loaded. *)
Record Process := {
  schema : list Ddl;
  out : list string;
  listening : bool
}.

Definition PORT : string := Js.or_else (env "PORT") "3000".

(** Loading [server.js]: [initDb()] is called and awaits its first
    query; [app.listen(PORT, ...)] is called at once, whatever becomes of
    [initDb], and its callback writes the first line; the [.catch] of
    [initDb] writes its line when a statement has been rejected. *)
Definition start (fault : Ddl → option JsError) : Process :=
  let '(ran, r) := initDb fault in
  let caught := match r with
                | Some e => ["DB init error: " ++ err_message e]
                | None => []
                end in
  {| schema := ran;
     out := ["Server running on http://localhost:" ++ PORT] ++ caught;
     listening := true |}.

(** *** Accounts, again: register and fetch *)

(** [bcrypt.hash(data, saltRounds)] with the ten rounds of the register
    handler: the hash, or a rejection. *)
Variable bcrypt_hash : string → JsError + string.

(** The [catch (err)] block of the register handler. *)
Definition register_catch (err : JsError) (w : World) : Response * World :=
  if String.eqb (err_code err) "23505"
  then (fail 409 "Пользователь уже существует", w)
  else (fail 500 ("Ошибка БД: " ++ err_message err),
        console_error ("DB error (POST /api/register): " ++ err_message err) w).

(** [POST /api/register]; [serial] is the id the sequence of [users]
    gives to the INSERT. *)
Definition register (o : Oracle) (serial : Z) (req : Request) (w : World)
    : Response * World :=
  if Js.falsy (email (body req)) || Js.falsy (password (body req))
  then (fail 400 "email и пароль обязательны", w)
  else
    let lowered := Js.toLowerCase (default "" (email (body req))) in
    match bcrypt_hash (default "" (password (body req))) with
    | inl err => register_catch err w
    | inr hashedPassword =>
        match pool_query o 0 (Sql.insert_user serial lowered hashedPassword) w with
        | (inl err, w1) => register_catch err w1
        | (inr (inl err), w1) => register_catch err w1
        | (inr (inr user), w1) =>
            (json (PUser (u_id user) (u_email user)
                     (json_or_empty (u_likes user)) (json_or_empty (u_playlists user))),
             w1)
        end
    end.

(** [GET /api/user/:id] *)
Definition get_user (o : Oracle) (req : Request) (w : World) : Response * World :=
  let userId := Js.parseInt (params_id req) in
  if Js.falsy_num userId then (fail 400 "id обязателен", w)
  else
    match pool_query o 0 (Sql.select_user_by_id (default 0 userId)) w with
    | (inl err, w1) =>
        (fail 500 ("Ошибка БД: " ++ err_message err),
         console_error ("DB error (GET /api/user/:id): " ++ err_message err) w1)
    | (inr [], w1) => (fail 404 "Пользователь не найден", w1)
    | (inr (user :: _), w1) =>
        (json (PUser (u_id user) (u_email user)
                 (json_or_empty (u_likes user)) (json_or_empty (u_playlists user))),
         w1)
    end.

(** [GET /api/tracks]: the rows as they are sent, or the 500 of the
    [catch] block. *)
Definition get_tracks (o : Oracle) (w : World) : (Response + list Track) * World :=
  match pool_query o 0 Sql.select_tracks_desc w with
  | (inl err, w1) =>
      (inl (fail 500 ("Ошибка БД: " ++ err_message err)),
       console_error ("DB error (GET /api/tracks): " ++ err_message err) w1)
  | (inr rows, w1) => (inr rows, w1)
  end.

(** [isOwner] and its list. *)
Definition OWNER_EMAILS : list string := ["zilajrik7@gmail.com"; "ilove@you.com"].

Definition isOwner (email : option string) : bool :=
  bool_decide ((Js.toLowerCase <$> email) ∈ (Some <$> OWNER_EMAILS)).

(** *** Invariants of the tables *)

(** What the constraints of [CREATE TABLE users] and the lowercasing of
    the register handler maintain: ids are unique, emails are unique, and
    every stored email is its own lowercase form. *)
Definition users_ok (d : Db) : Prop :=
  NoDup (u_id <$> users d)
  ∧ NoDup (u_email <$> users d)
  ∧ Forall (λ u, Js.toLowerCase (u_email u) = u_email u) (users d).

#[global] Instance users_ok_dec (d : Db) : Decision (users_ok d).
Proof. unfold users_ok. apply _. Defined.

(** What the sequence behind [tracks.id] maintains: ids are unique and
    none is ahead of the sequence. *)
Definition tracks_ok (d : Db) : Prop :=
  NoDup (t_id <$> tracks d) ∧ Forall (λ t, t_id t ≤ tracks_seq d) (tracks d).

#[global] Instance tracks_ok_dec (d : Db) : Decision (tracks_ok d).
Proof. unfold tracks_ok. apply _. Defined.

(** The oracle of a request that runs alone: no statement is rejected and
    no other request writes in between. *)
Definition undisturbed (o : Oracle) : Prop :=
  (∀ k, db_fault o k = None) ∧ (∀ k d, concurrent o k d = d).

(** ** Properties of the handlers *)

(** *** The file system and the secret *)

Lemma unlinkSync_gone (p : string) (w : World) : p ∉ fs (unlinkSync p w).2.
Proof.
  unfold unlinkSync. case_bool_decide as Hin; simpl; [| exact Hin].
  intros [_ Hn]%elem_of_difference. apply Hn, elem_of_singleton. reflexivity.
Qed.

Lemma unlinkSync_db (p : string) (w : World) : db (unlinkSync p w).2 = db w.
Proof. unfold unlinkSync. case_bool_decide; reflexivity. Qed.

Lemma unlinkSync_other (p q : string) (w : World) :
  q ≠ p → q ∈ fs w → q ∈ fs (unlinkSync p w).2.
Proof.
  intros Hne Hq. unfold unlinkSync. case_bool_decide; simpl; [| exact Hq].
  apply elem_of_difference. split; [exact Hq |].
  intros Heq%elem_of_singleton. contradiction.
Qed.

Lemma unlink_ignore_gone (p : string) (w : World) : p ∉ fs (unlink_ignore p w).
Proof. apply unlinkSync_gone. Qed.

Lemma unlink_ignore_db (p : string) (w : World) : db (unlink_ignore p w) = db w.
Proof. apply unlinkSync_db. Qed.

Lemma console_error_db (l : string) (w : World) : db (console_error l w) = db w.
Proof. reflexivity. Qed.

Lemma console_error_fs (l : string) (w : World) : fs (console_error l w) = fs w.
Proof. reflexivity. Qed.

(** The secret is never the empty string: [process.env.ADMIN_PASSWORD ||
    'dev-admin-password']. *)
Lemma ADMIN_PASSWORD_nonempty : Js.is_empty ADMIN_PASSWORD = false.
Proof.
  unfold ADMIN_PASSWORD, Js.or_else.
  destruct (env "ADMIN_PASSWORD") as [[|c s]|]; reflexivity.
Qed.

(** The inline check of the upload route lets a request through exactly
    when its body carries the secret. *)
Lemma upload_check (token : option string) :
  Js.falsy token || negb (bool_decide (token = Some ADMIN_PASSWORD)) = false
  ↔ token = Some ADMIN_PASSWORD.
Proof.
  split.
  - intros H. destruct (orb_false_elim _ _ H) as [_ Heq].
    apply negb_false_iff, bool_decide_eq_true in Heq. exact Heq.
  - intros ->. simpl. rewrite ADMIN_PASSWORD_nonempty.
    rewrite bool_decide_eq_true_2; reflexivity.
Qed.

Lemma upload_check_denies (token : option string) :
  token ≠ Some ADMIN_PASSWORD →
  Js.falsy token || negb (bool_decide (token = Some ADMIN_PASSWORD)) = true.
Proof.
  intros Hne. destruct (_ || _) eqn:E; [reflexivity |].
  apply upload_check in E. contradiction.
Qed.

(** *** Upload: authorization *)

(** C1: an upload whose body token is absent or is not the configured
    secret is answered 403 Forbidden; the file multer had staged for it
    is no longer on disk, and the database is left as it was, so no row
    has been added to [tracks]. *)
Theorem upload_wrong_token_forbidden (o : Oracle) (req : Request) (w : World) :
  adminPassword (body req) ≠ Some ADMIN_PASSWORD →
  (upload o req w).1 = forbidden
  ∧ status (upload o req w).1 = 403
  ∧ (∀ f, file req = Some f → f_path f ∉ fs (upload o req w).2)
  ∧ db (upload o req w).2 = db w.
Proof.
  intros Hne. unfold upload.
  rewrite (upload_check_denies _ Hne). simpl.
  repeat split.
  - intros f Hf. rewrite Hf. apply unlinkSync_gone.
  - destruct (file req); [apply unlinkSync_db | reflexivity].
Qed.

(** *** Upload: the offload step *)

Lemma is_empty_false (s : string) : s ≠ "" → Js.is_empty s = false.
Proof. destruct s; [congruence | reflexivity]. Qed.

Lemma pool_query_fs {A : Type} (o : Oracle) (k : nat) (stmt : Db → A * Db) (w : World) :
  fs (pool_query o k stmt w).2 = fs w.
Proof.
  unfold pool_query. destruct (db_fault o k); [reflexivity |].
  destruct (stmt _); reflexivity.
Qed.

(** The [try] and [catch] blocks write to the console only. *)
Lemma offload_try_keeps (o : Oracle) (u sp lp : string) (w : World) :
  db (offload_try o u sp lp w).2 = db w ∧ fs (offload_try o u sp lp w).2 = fs w.
Proof.
  unfold offload_try, offload_catch.
  destruct (readFileSync lp w); [split; reflexivity |].
  destruct (fetch o u) as [st text|e].
  - destruct (negb (resp_ok st)); simpl;
      destruct (negb _ && negb _); split; reflexivity.
  - simpl. destruct (negb _ && negb _); split; reflexivity.
Qed.

Lemma offload_db (o : Oracle) (f : File) (w : World) : db (offload o f w).2 = db w.
Proof.
  unfold offload. destruct storage_configured; [| reflexivity].
  destruct (offload_try _ _ _ _ _) as [r w1] eqn:E. simpl.
  rewrite unlink_ignore_db.
  pose proof (offload_try_keeps o (upload_url (f_filename f))
                (SUPABASE_BUCKET ++ "/" ++ f_filename f) (f_path f) w) as [Hdb _].
  rewrite E in Hdb. exact Hdb.
Qed.

(** With storage configured, the [finally] block has removed the staged
    file whichever way the [try] block ended. *)
Lemma offload_unlinks (o : Oracle) (f : File) (w : World) :
  storage_configured = true → f_path f ∉ fs (offload o f w).2.
Proof.
  intros Hc. unfold offload. rewrite Hc.
  destruct (offload_try _ _ _ _ _) as [r w1]. simpl. apply unlink_ignore_gone.
Qed.

(** Without storage the statement is skipped. *)
Lemma offload_local (o : Oracle) (f : File) (w : World) :
  storage_configured = false → offload o f w = (inr ("/uploads/" ++ f_filename f), w).
Proof. intros Hc. unfold offload. rewrite Hc. reflexivity. Qed.

Lemma offload_failed_500 (o : Oracle) (f : File) (w : World) :
  storage_configured = true → offload_failed o f w = true →
  ∃ msg, (offload o f w).1 = inl (fail 500 msg).
Proof.
  intros Hc Hf. unfold offload. rewrite Hc.
  unfold offload_failed in Hf. unfold offload_try, offload_catch.
  destruct (readFileSync (f_path f) w); [eexists; reflexivity |].
  destruct (fetch o (upload_url (f_filename f))) as [st text|e].
  - rewrite Hf. eexists; reflexivity.
  - eexists; reflexivity.
Qed.

Lemma record_upload_fs (o : Oracle) (t a u : string) (w : World) :
  fs (record_upload o t a u w).2 = fs w.
Proof.
  unfold record_upload.
  pose proof (pool_query_fs o 0 (Sql.insert_track t (or_null (Some a)) u) w) as Hfs.
  destruct (pool_query _ _ _ _) as [[err|id] w2]; exact Hfs.
Qed.

(** An authorized upload with a title and a file gets to the offload. *)
Lemma upload_staged (o : Oracle) (req : Request) (w : World) (f : File) :
  adminPassword (body req) = Some ADMIN_PASSWORD →
  Js.trim (Js.or_else (title (body req)) "") ≠ "" →
  file req = Some f →
  upload o req w =
    match offload o f w with
    | (inl resp, w1) => (resp, w1)
    | (inr finalUrl, w1) =>
        record_upload o (Js.trim (Js.or_else (title (body req)) ""))
          (Js.trim (Js.or_else (artist (body req)) "")) finalUrl w1
    end.
Proof.
  intros Ha Ht Hf. unfold upload.
  apply upload_check in Ha. rewrite Ha.
  rewrite (is_empty_false _ Ht), Hf. reflexivity.
Qed.

(** C2: an authorized upload that reaches the offload, with remote
    storage configured, and whose offload fails (the response is not 2xx,
    or the read or the call throws) is answered with a 500 error, and the
    database is left as it was: no row is added to [tracks]. *)
Theorem upload_offload_failure_rejected (o : Oracle) (req : Request) (w : World) (f : File) :
  adminPassword (body req) = Some ADMIN_PASSWORD →
  Js.trim (Js.or_else (title (body req)) "") ≠ "" →
  file req = Some f →
  storage_configured = true →
  offload_failed o f w = true →
  (∃ msg, (upload o req w).1 = fail 500 msg)
  ∧ db (upload o req w).2 = db w
  ∧ tracks (db (upload o req w).2) = tracks (db w).
Proof.
  intros Ha Ht Hf Hc Hfail.
  rewrite (upload_staged o req w f Ha Ht Hf).
  destruct (offload_failed_500 o f w Hc Hfail) as [msg Hmsg].
  pose proof (offload_db o f w) as Hdb.
  destruct (offload o f w) as [[resp|finalUrl] w1]; simpl in *; [| discriminate].
  injection Hmsg as ->. rewrite Hdb. eauto.
Qed.

(** C4, as the code has it: for an authorized upload with a title and a
    staged file, when remote storage is configured the staged file is off
    the disk at the end of the request, whatever the offload and the
    insert did; when it is not configured the disk is left as it was, so
    the staged file stays: it is the file the recorded [/uploads/<name>]
    address is served from. *)
Theorem upload_staged_file_fate (o : Oracle) (req : Request) (w : World) (f : File) :
  adminPassword (body req) = Some ADMIN_PASSWORD →
  Js.trim (Js.or_else (title (body req)) "") ≠ "" →
  file req = Some f →
  (storage_configured = true → f_path f ∉ fs (upload o req w).2)
  ∧ (storage_configured = false →
     fs (upload o req w).2 = fs w
     ∧ (db_fault o 0 = None →
        ∃ id t a, (upload o req w).1 = json (PTrack id t a ("/uploads/" ++ f_filename f)))).
Proof.
  intros Ha Ht Hf. rewrite (upload_staged o req w f Ha Ht Hf). split.
  - intros Hc. pose proof (offload_unlinks o f w Hc) as Hgone.
    destruct (offload o f w) as [[resp|finalUrl] w1]; simpl in *; [exact Hgone |].
    rewrite record_upload_fs. exact Hgone.
  - intros Hc. rewrite (offload_local o f w Hc). split.
    + apply record_upload_fs.
    + intros Hok. unfold record_upload, pool_query. rewrite Hok. simpl. eauto.
Qed.

(** *** The owner check *)

(** [requireOwner] calls [next()] exactly when the token it reads, the
    body field or else the header, is the secret. *)
Lemma requireOwner_allows_iff (req : Request) :
  requireOwner req = None
  ↔ Js.or_else (adminPassword (body req)) (Js.or_else (x_admin_password req) "")
    = ADMIN_PASSWORD.
Proof.
  unfold requireOwner.
  set (t := Js.or_else _ _). split.
  - destruct (Js.is_empty t || negb (t =? ADMIN_PASSWORD)%string) eqn:E; [discriminate |].
    intros _. destruct (orb_false_elim _ _ E) as [_ Heq].
    apply negb_false_iff, String.eqb_eq in Heq. exact Heq.
  - intros ->. rewrite ADMIN_PASSWORD_nonempty, String.eqb_refl. reflexivity.
Qed.

Lemma requireOwner_denies (req : Request) :
  requireOwner req ≠ None → requireOwner req = Some forbidden.
Proof. unfold requireOwner. destruct (_ || _); congruence. Qed.

(** A route behind [requireOwner] answers 403 and touches nothing when
    the token is not the secret, whatever its handler is: this covers
    [POST /api/tracks], [PUT /api/tracks/:id] and [DELETE /api/tracks/:id]. *)
Lemma owner_only_forbidden (handler : Oracle → Request → World → Response * World)
    (o : Oracle) (req : Request) (w : World) :
  Js.or_else (adminPassword (body req)) (Js.or_else (x_admin_password req) "")
    ≠ ADMIN_PASSWORD →
  owner_only handler o req w = (forbidden, w).
Proof.
  intros Hne. unfold owner_only.
  destruct (requireOwner req) as [r|] eqn:E.
  - rewrite requireOwner_denies in E by congruence. congruence.
  - apply requireOwner_allows_iff in E. contradiction.
Qed.

(** *** Upload: validation *)

(** An authorized upload without a title, or without a file, is answered
    400 and the handler returns at once: the database, the disk and the
    console are what they were.  In particular a file that multer staged
    for a request without a title is left where it is. *)
Lemma upload_invalid_keeps_world (o : Oracle) (req : Request) (w : World) :
  adminPassword (body req) = Some ADMIN_PASSWORD →
  Js.trim (Js.or_else (title (body req)) "") = "" ∨ file req = None →
  (∃ msg, (upload o req w).1 = fail 400 msg) ∧ (upload o req w).2 = w.
Proof.
  intros Ha Hbad. unfold upload.
  apply upload_check in Ha. rewrite Ha.
  destruct (Js.is_empty (Js.trim (Js.or_else (title (body req)) ""))) eqn:Ht.
  - simpl. eauto.
  - destruct Hbad as [Hblank | Hnone].
    + rewrite Hblank in Ht. discriminate Ht.
    + rewrite Hnone. simpl. eauto.
Qed.

(** *** Delete *)

Lemma starts_with_nonempty (p s : string) :
  p ≠ "" → Js.starts_with p s = true → Js.is_empty s = false.
Proof.
  intros Hp H. destruct s; [| reflexivity].
  destruct p; [congruence | discriminate H].
Qed.

Lemma falsy_num_false (id : Z) : id ≠ 0 → Js.falsy_num (Some id) = false.
Proof. intros H. simpl. apply Z.eqb_neq. exact H. Qed.

Lemma delete_track_rows_gone (id : Z) (d : Db) (t : Track) :
  t ∈ tracks (Sql.delete_track id d).2 → t_id t ≠ id.
Proof. simpl. intros [H _]%list_elem_of_filter. exact H. Qed.

(** What the delete handler does once the id is accepted and the store
    answers both statements: [d0] is the database the lookup sees, [d1]
    the one the DELETE sees. *)
Lemma delete_track_run (o : Oracle) (req : Request) (w : World) (id : Z) :
  Js.parseInt (params_id req) = Some id →
  id ≠ 0 →
  db_fault o 0 = None →
  db_fault o 1 = None →
  delete_track o req w =
    let d0 := concurrent o 0 (db w) in
    let d1 := concurrent o 1 d0 in
    match lookup_url id d0 with
    | None => (not_found, with_db d0 w)
    | Some u =>
        let w2 := with_db (Sql.delete_track id d1).2 w in
        match Sql.count_tracks id d1 with
        | O => (not_found, w2)
        | S _ =>
            (json PSuccess,
             if negb (Js.is_empty u) && Js.starts_with "/uploads/" u
             then unlink_ignore (local_file u) w2
             else w2)
        end
    end.
Proof.
  intros Hid Hnz Hq0 Hq1.
  unfold delete_track. rewrite Hid, (falsy_num_false id Hnz).
  unfold pool_query, lookup_url. rewrite Hq0. simpl.
  destruct (t_url <$> filter (λ t, t_id t = id) (tracks (concurrent o 0 (db w))))
    as [|u rest]; [reflexivity |].
  simpl. rewrite Hq1. reflexivity.
Qed.

(** The delete of an accepted id, when the store answers both statements,
    ends in one of three ways.  No row at the lookup, or none left when
    the DELETE runs: 404 NotFound, the disk untouched.  A row whose url
    starts with [/uploads/]: the answer is success, the rows with that id
    are gone and the others kept, and the backing file is off the disk,
    whether or not it was there to remove.  A row with any other url:
    success, the rows gone, the disk untouched. *)
Lemma delete_track_accepted_id (o : Oracle) (req : Request) (w : World) (id : Z) :
  requireOwner req = None →
  Js.parseInt (params_id req) = Some id →
  id ≠ 0 →
  db_fault o 0 = None →
  db_fault o 1 = None →
  let d0 := concurrent o 0 (db w) in
  let d1 := concurrent o 1 d0 in
  let r := owner_only delete_track o req w in
  (lookup_url id d0 = None → r.1 = not_found ∧ fs r.2 = fs w)
  ∧ (is_Some (lookup_url id d0) → Sql.count_tracks id d1 = 0%nat →
     r.1 = not_found ∧ fs r.2 = fs w)
  ∧ (∀ u, lookup_url id d0 = Some u → Sql.count_tracks id d1 ≠ 0%nat →
     r.1 = json PSuccess
     ∧ tracks (db r.2) = filter (λ t, t_id t ≠ id) (tracks d1)
     ∧ (∀ t, t ∈ tracks (db r.2) → t_id t ≠ id)
     ∧ (Js.starts_with "/uploads/" u = true →
        (local_file u ∉ fs r.2) ∧ (∀ q, q ≠ local_file u → q ∈ fs w → q ∈ fs r.2))
     ∧ (Js.starts_with "/uploads/" u = false → fs r.2 = fs w)).
Proof.
  intros Hown Hid Hnz Hq0 Hq1 d0 d1 r.
  assert (Hr : r = delete_track o req w).
  { subst r. unfold owner_only. rewrite Hown. reflexivity. }
  rewrite (delete_track_run o req w id Hid Hnz Hq0 Hq1) in Hr.
  cbv zeta in Hr. fold d0 d1 in Hr. clearbody r.
  split; [| split].
  - intros Hnone. rewrite Hnone in Hr. subst r. auto.
  - intros [u Hu] Hcount. rewrite Hu, Hcount in Hr. subst r. auto.
  - intros u Hu Hcount. rewrite Hu in Hr.
    destruct (Sql.count_tracks id d1) as [|n]; [congruence |].
    destruct (Js.starts_with "/uploads/" u) eqn:Hpre.
    + rewrite (starts_with_nonempty "/uploads/" u) in Hr; [| discriminate | exact Hpre].
      simpl in Hr. subst r. simpl. rewrite unlink_ignore_db. simpl.
      split; [reflexivity |].
      split; [reflexivity |].
      split; [intros t [H _]%list_elem_of_filter; exact H |].
      split; [| discriminate].
      intros _. split; [apply unlink_ignore_gone |].
      intros q Hne Hin. apply unlinkSync_other; [exact Hne | exact Hin].
    + rewrite andb_false_r in Hr. subst r. simpl.
      split; [reflexivity |].
      split; [reflexivity |].
      split; [intros t [H _]%list_elem_of_filter; exact H |].
      split; [discriminate | reflexivity].
Qed.

(** An id that [parseInt] turns into [NaN] or into 0 is refused by the
    handler's first line, before anything is sent to the store. *)
Lemma delete_track_bad_id (o : Oracle) (req : Request) (w : World) :
  Js.parseInt (params_id req) = None ∨ Js.parseInt (params_id req) = Some 0 →
  delete_track o req w = (fail 400 "id обязателен", w).
Proof. intros [H | H]; unfold delete_track; rewrite H; reflexivity. Qed.

(** C5, as the code has it, for every authorized delete.  An id that
    parses to [NaN] or to 0 is answered 400 and nothing is looked up or
    written: the database, the disk and the console are untouched.  An id
    that parses to another number, when the store answers both
    statements: no row at the lookup, or none left when the DELETE runs,
    gives 404 NotFound with the disk untouched; a row whose url starts
    with [/uploads/] gives success, the rows with that id gone, the
    others kept, and the backing file off the disk whether or not it was
    there to remove; a row with any other url gives success, the rows
    gone, the disk untouched. *)
Theorem delete_track_outcomes (o : Oracle) (req : Request) (w : World) :
  requireOwner req = None →
  let r := owner_only delete_track o req w in
  (Js.parseInt (params_id req) = None ∨ Js.parseInt (params_id req) = Some 0 →
   r = (fail 400 "id обязателен", w))
  ∧ (∀ id,
       Js.parseInt (params_id req) = Some id →
       id ≠ 0 →
       db_fault o 0 = None →
       db_fault o 1 = None →
       let d0 := concurrent o 0 (db w) in
       let d1 := concurrent o 1 d0 in
       (lookup_url id d0 = None → r.1 = not_found ∧ fs r.2 = fs w)
       ∧ (is_Some (lookup_url id d0) → Sql.count_tracks id d1 = 0%nat →
          r.1 = not_found ∧ fs r.2 = fs w)
       ∧ (∀ u, lookup_url id d0 = Some u → Sql.count_tracks id d1 ≠ 0%nat →
          r.1 = json PSuccess
          ∧ tracks (db r.2) = filter (λ t, t_id t ≠ id) (tracks d1)
          ∧ (∀ t, t ∈ tracks (db r.2) → t_id t ≠ id)
          ∧ (Js.starts_with "/uploads/" u = true →
             (local_file u ∉ fs r.2)
             ∧ (∀ q, q ≠ local_file u → q ∈ fs w → q ∈ fs r.2))
          ∧ (Js.starts_with "/uploads/" u = false → fs r.2 = fs w))).
Proof.
  intros Hown r. split.
  - intros Hbad. subst r. unfold owner_only. rewrite Hown.
    apply delete_track_bad_id. exact Hbad.
  - intros id Hid Hnz Hq0 Hq1.
    exact (delete_track_accepted_id o req w id Hown Hid Hnz Hq0 Hq1).
Qed.

(** *** Login *)

(** When [bcrypt.compare] resolves, the two refusals are one: a login
    whose normalized email has no account and a login whose account exists
    but whose password [bcrypt.compare] resolves to [false] for get the
    very same response, 401 with one message. *)
Theorem login_failures_indistinguishable
    (o1 o2 : Oracle) (req1 req2 : Request) (w1 w2 : World)
    (e1 e2 : string) (u : User) (rest : list User) :
  email (body req1) = Some e1 →
  db_fault o1 0 = None →
  (Sql.select_user_by_email (Js.toLowerCase e1) (concurrent o1 0 (db w1))).1 = [] →
  email (body req2) = Some e2 →
  db_fault o2 0 = None →
  (Sql.select_user_by_email (Js.toLowerCase e2) (concurrent o2 0 (db w2))).1 = u :: rest →
  bcrypt_compare (password (body req2)) (u_password u) = Resolves false →
  (login o1 req1 w1).1 = (login o2 req2 w2).1
  ∧ (login o1 req1 w1).1 = invalid_credentials
  ∧ status (login o2 req2 w2).1 = 401.
Proof.
  intros He1 Hq1 Hnone He2 Hq2 Hsome Hcmp.
  assert (H1 : (login o1 req1 w1).1 = invalid_credentials).
  { unfold login. rewrite He1. unfold pool_query. rewrite Hq1.
    simpl in *. rewrite Hnone. reflexivity. }
  assert (H2 : (login o2 req2 w2).1 = invalid_credentials).
  { unfold login. rewrite He2. unfold pool_query. rewrite Hq2.
    simpl in *. rewrite Hsome, Hcmp. reflexivity. }
  rewrite H1, H2. auto.
Qed.

(** When [bcrypt.compare] rejects, as it does for a password that is
    not a string, the handler's [catch] block answers 500 for an address
    that has an account, while an address without one was answered 401
    before the comparison. *)
Lemma login_compare_rejects
    (o : Oracle) (req : Request) (w : World) (e : string) (u : User) (rest : list User)
    (err : JsError) :
  email (body req) = Some e →
  db_fault o 0 = None →
  (Sql.select_user_by_email (Js.toLowerCase e) (concurrent o 0 (db w))).1 = u :: rest →
  bcrypt_compare (password (body req)) (u_password u) = Rejects err →
  (login o req w).1 = fail 500 ("Ошибка БД: " ++ err_message err).
Proof.
  intros He Hq Hrow Hcmp. unfold login. rewrite He. unfold pool_query. rewrite Hq.
  simpl in *. rewrite Hrow, Hcmp. reflexivity.
Qed.

(** *** Likes and playlists *)

Lemma set_likes_absent (l : Json) (id : Z) (us : list User) :
  (∀ u, u ∈ us → u_id u ≠ id) → Sql.set_likes l id <$> us = us.
Proof.
  induction us as [|u us IH]; intros H; [reflexivity |].
  rewrite fmap_cons, IH.
  - unfold Sql.set_likes. rewrite bool_decide_eq_false_2; [reflexivity |].
    apply H. left.
  - intros v Hv. apply H. right. exact Hv.
Qed.

Lemma set_playlists_absent (l : Json) (id : Z) (us : list User) :
  (∀ u, u ∈ us → u_id u ≠ id) → Sql.set_playlists l id <$> us = us.
Proof.
  induction us as [|u us IH]; intros H; [reflexivity |].
  rewrite fmap_cons, IH.
  - unfold Sql.set_playlists. rewrite bool_decide_eq_false_2; [reflexivity |].
    apply H. left.
  - intros v Hv. apply H. right. exact Hv.
Qed.

(** For an accepted id that has no row in [users], an array input and an
    UPDATE the store answers, both handlers answer success and echo the
    collection; the UPDATE matched nothing, so the database is what it was
    when the statement ran. *)
Lemma replace_collection_accepted_id
    (o : Oracle) (req : Request) (w : World) (id : Z) (items : list Json) :
  Js.parseInt (params_id req) = Some id →
  id ≠ 0 →
  db_fault o 0 = None →
  (∀ u, u ∈ users (concurrent o 0 (db w)) → u_id u ≠ id) →
  (likes (body req) = Some (JArr items) →
   (put_likes o req w).1 = json (PLikes (JArr items))
   ∧ db (put_likes o req w).2 = concurrent o 0 (db w))
  ∧ (playlists (body req) = Some (JArr items) →
     (put_playlists o req w).1 = json (PPlaylists (JArr items))
     ∧ db (put_playlists o req w).2 = concurrent o 0 (db w)).
Proof.
  intros Hid Hnz Hq Habsent. split; intros Hin.
  - unfold put_likes. rewrite Hid, (falsy_num_false id Hnz), Hin.
    unfold pool_query. rewrite Hq. simpl.
    split; [reflexivity |].
    rewrite (set_likes_absent _ _ _ Habsent).
    destruct (concurrent o 0 (db w)); reflexivity.
  - unfold put_playlists. rewrite Hid, (falsy_num_false id Hnz), Hin.
    unfold pool_query. rewrite Hq. simpl.
    split; [reflexivity |].
    rewrite (set_playlists_absent _ _ _ Habsent).
    destruct (concurrent o 0 (db w)); reflexivity.
Qed.

(** An id that [parseInt] turns into [NaN] or into 0 is refused by the
    first check of either handler, whatever the body holds. *)
Lemma replace_collection_bad_id (o : Oracle) (req : Request) (w : World) :
  Js.parseInt (params_id req) = None ∨ Js.parseInt (params_id req) = Some 0 →
  put_likes o req w = (fail 400 "id обязателен", w)
  ∧ put_playlists o req w = (fail 400 "id обязателен", w).
Proof. intros [H | H]; unfold put_likes, put_playlists; rewrite H; split; reflexivity. Qed.

(** C10, as the code has it, for every request.  An id that parses to
    [NaN] or to 0 is answered 400 by both handlers and the store is not
    touched: the database, the disk and the console are what they were.
    For an id that parses to another number and has no row in [users], an
    array input, and an UPDATE the store answers, both handlers answer
    success and echo the collection; the UPDATE matched nothing, so the
    database is what it was when the statement ran.  There is no 404. *)
Theorem replace_collection_missing_user (o : Oracle) (req : Request) (w : World) :
  (Js.parseInt (params_id req) = None ∨ Js.parseInt (params_id req) = Some 0 →
   put_likes o req w = (fail 400 "id обязателен", w)
   ∧ put_playlists o req w = (fail 400 "id обязателен", w))
  ∧ (∀ id items,
       Js.parseInt (params_id req) = Some id →
       id ≠ 0 →
       db_fault o 0 = None →
       (∀ u, u ∈ users (concurrent o 0 (db w)) → u_id u ≠ id) →
       (likes (body req) = Some (JArr items) →
        (put_likes o req w).1 = json (PLikes (JArr items))
        ∧ db (put_likes o req w).2 = concurrent o 0 (db w))
       ∧ (playlists (body req) = Some (JArr items) →
          (put_playlists o req w).1 = json (PPlaylists (JArr items))
          ∧ db (put_playlists o req w).2 = concurrent o 0 (db w))).
Proof.
  split.
  - apply replace_collection_bad_id.
  - intros id items. apply replace_collection_accepted_id.
Qed.

(** *** Start-up *)

Lemma run_ddl_stops (fault : Ddl → option JsError) (todo ran : list Ddl) (e : JsError) :
  run_ddl fault todo = (ran, Some e) → (length ran < length todo)%nat.
Proof.
  revert ran. induction todo as [|s rest IH]; intros ran H; simpl in H.
  - discriminate H.
  - destruct (fault s) as [e'|].
    + injection H as <- _. simpl. lia.
    + destruct (run_ddl fault rest) as [ran' r] eqn:E.
      injection H as <- ->. simpl. specialize (IH ran' eq_refl). lia.
Qed.

(** The statements before the first rejected one run; that one and those
    after it do not. *)
Lemma run_ddl_first_rejection (fault : Ddl → option JsError) (pre post : list Ddl)
    (s : Ddl) (e : JsError) :
  Forall (λ x, fault x = None) pre →
  fault s = Some e →
  run_ddl fault (pre ++ s :: post)%list = (pre, Some e).
Proof.
  intros Hpre Hs. induction pre as [|x pre IH]; simpl.
  - rewrite Hs. reflexivity.
  - apply Forall_cons in Hpre as [Hx Hpre]. rewrite Hx, (IH Hpre). reflexivity.
Qed.

(** C7, as the code has it: when the store rejects a statement of
    [initDb], the statements before it have run and that statement and
    every one after it have not; the error is written to the console,
    after the line of [app.listen]; and start-up goes on: the server
    listens all the same. *)
Theorem start_ddl_failure_logged_not_fatal
    (fault : Ddl → option JsError) (pre post : list Ddl) (s : Ddl) (e : JsError) :
  initDb_statements = (pre ++ s :: post)%list →
  Forall (λ x, fault x = None) pre →
  fault s = Some e →
  schema (start fault) = pre
  ∧ out (start fault) = ["Server running on http://localhost:" ++ PORT;
                         "DB init error: " ++ err_message e]
  ∧ listening (start fault) = true.
Proof.
  intros Hsplit Hpre Hs. unfold start, initDb.
  rewrite Hsplit, (run_ddl_first_rejection fault pre post s e Hpre Hs).
  repeat split.
Qed.


(** *** Accounts: registration *)

Lemma lower_char_idem (c : ascii) : Js.lower_char (Js.lower_char c) = Js.lower_char c.
Proof. destruct c as [[] [] [] [] [] [] [] []]; reflexivity. Qed.

Lemma toLowerCase_idem (s : string) : Js.toLowerCase (Js.toLowerCase s) = Js.toLowerCase s.
Proof.
  induction s as [|c r IH]; [reflexivity |].
  simpl. rewrite lower_char_idem, IH. reflexivity.
Qed.

Lemma filter_none {A : Type} (P : A → Prop) `{∀ x, Decision (P x)} (l : list A) :
  (∀ x, x ∈ l → ¬ P x) → filter P l = [].
Proof.
  induction l as [|a l IH]; intros Hn; [reflexivity |].
  rewrite filter_cons_False by (apply Hn; left).
  apply IH. intros x Hx. apply Hn. right. exact Hx.
Qed.

Lemma filter_all {A : Type} (P : A → Prop) `{∀ x, Decision (P x)} (l : list A) :
  (∀ x, x ∈ l → P x) → filter P l = l.
Proof.
  induction l as [|a l IH]; intros Ha; [reflexivity |].
  rewrite filter_cons_True by (apply Ha; left).
  f_equal. apply IH. intros x Hx. apply Ha. right. exact Hx.
Qed.

Lemma not_in_fmap {A B : Type} (f : A → B) (b : B) (l : list A) :
  b ∉ f <$> l → ∀ x, x ∈ l → f x ≠ b.
Proof.
  intros Hn x Hx Heq. apply Hn. rewrite <- Heq. apply list_elem_of_fmap_2. exact Hx.
Qed.

Lemma falsy_Some (s : string) : s ≠ "" → Js.falsy (Some s) = false.
Proof. intros H. simpl. apply is_empty_false. exact H. Qed.

(** What the INSERT of the register handler does with a free key. *)
Lemma insert_user_fresh (id : Z) (e h : string) (d : Db) :
  id ∉ u_id <$> users d →
  e ∉ u_email <$> users d →
  Sql.insert_user id e h d
  = (inr {| u_id := id; u_email := e; u_password := h;
            u_likes := Some (JArr []); u_playlists := Some (JArr []) |},
     {| users := users d ++ [{| u_id := id; u_email := e; u_password := h;
                               u_likes := Some (JArr []); u_playlists := Some (JArr []) |}];
        tracks := tracks d; tracks_seq := tracks_seq d |}).
Proof.
  intros Hid He. unfold Sql.insert_user.
  rewrite (bool_decide_eq_false_2 _ Hid), (bool_decide_eq_false_2 _ He). reflexivity.
Qed.

(** A taken key: the statement is rejected with 23505 and writes
    nothing. *)
Lemma insert_user_taken (id : Z) (e h : string) (d : Db) :
  id ∈ u_id <$> users d ∨ e ∈ u_email <$> users d →
  ∃ err, Sql.insert_user id e h d = (inl err, d) ∧ err_code err = "23505".
Proof.
  intros Htaken. unfold Sql.insert_user.
  case_bool_decide as Hid; [eexists; split; reflexivity |].
  case_bool_decide as He; [eexists; split; reflexivity |].
  destruct Htaken; contradiction.
Qed.

(** X1. Registering an address that is already stored, in whatever
    letter case it is typed, is answered 409 and the database is what it
    was when the INSERT arrived: no second row. *)
Theorem register_duplicate_conflict
    (o : Oracle) (serial : Z) (req : Request) (w : World) (e p h : string) :
  email (body req) = Some e → e ≠ "" →
  password (body req) = Some p → p ≠ "" →
  bcrypt_hash p = inr h →
  db_fault o 0 = None →
  Js.toLowerCase e ∈ u_email <$> users (concurrent o 0 (db w)) →
  (register o serial req w).1 = fail 409 "Пользователь уже существует"
  ∧ db (register o serial req w).2 = concurrent o 0 (db w)
  ∧ fs (register o serial req w).2 = fs w
  ∧ console (register o serial req w).2 = console w.
Proof.
  intros He Hne Hp Hnp Hh Hq Hin. unfold register.
  rewrite He, Hp, (falsy_Some e Hne), (falsy_Some p Hnp). simpl. rewrite Hh.
  unfold pool_query. rewrite Hq.
  destruct (insert_user_taken serial (Js.toLowerCase e) h (concurrent o 0 (db w)))
    as (err & Hins & Hcode); [right; exact Hin |].
  rewrite Hins. unfold register_catch. rewrite Hcode. simpl. auto.
Qed.

Lemma register_catch_db (err : JsError) (w : World) : db (register_catch err w).2 = db w.
Proof. unfold register_catch. destruct (_ =? _)%string; reflexivity. Qed.

Lemma insert_user_users_ok (id : Z) (e h : string) (d : Db) :
  users_ok d → users_ok (Sql.insert_user id (Js.toLowerCase e) h d).2.
Proof.
  intros (Hids & Hemails & Hlower). unfold Sql.insert_user.
  case_bool_decide as Hid; [repeat split; assumption |].
  case_bool_decide as He; [repeat split; assumption |].
  unfold users_ok. simpl. rewrite !fmap_app. simpl.
  split; [| split].
  - apply NoDup_app. split; [exact Hids |]. split; [| apply NoDup_singleton].
    intros x Hx Hx'. apply list_elem_of_singleton in Hx'. subst x. contradiction.
  - apply NoDup_app. split; [exact Hemails |]. split; [| apply NoDup_singleton].
    intros x Hx Hx'. apply list_elem_of_singleton in Hx'. subst x. contradiction.
  - apply Forall_app. split; [exact Hlower |].
    apply Forall_singleton. simpl. apply toLowerCase_idem.
Qed.

(** X2. The register handler keeps the [users] table well formed: after
    any registration, accepted or not, ids are still unique, addresses are
    still unique and every stored address is still lower case, provided
    the writes of concurrent requests keep it so. *)
Theorem register_keeps_users_ok (o : Oracle) (serial : Z) (req : Request) (w : World) :
  users_ok (db w) →
  (∀ d, users_ok d → users_ok (concurrent o 0 d)) →
  users_ok (db (register o serial req w).2).
Proof.
  intros Hok Hconc. unfold register.
  destruct (Js.falsy (email (body req)) || Js.falsy (password (body req)));
    [exact Hok |].
  destruct (bcrypt_hash _) as [err|h]; [rewrite register_catch_db; exact Hok |].
  unfold pool_query.
  destruct (db_fault o 0) as [err|].
  - rewrite register_catch_db. simpl. apply Hconc, Hok.
  - pose proof (insert_user_users_ok serial (default "" (email (body req))) h
                  (concurrent o 0 (db w)) (Hconc _ Hok)) as Hins.
    destruct (Sql.insert_user _ _ _ _) as [[err|user] d'].
    + rewrite register_catch_db. exact Hins.
    + exact Hins.
Qed.

(** X3. Register, then log in: an accepted registration is answered with
    the new id, the lowercased address and two empty collections, and a
    login with the same password and the same address in any letter case
    is answered with exactly the same body, when bcrypt recognises the
    password against the hash it made. *)
Theorem register_then_login
    (o1 o2 : Oracle) (serial : Z) (req1 req2 : Request) (w : World) (e e' p h : string) :
  email (body req1) = Some e → e ≠ "" →
  password (body req1) = Some p → p ≠ "" →
  bcrypt_hash p = inr h →
  bcrypt_compare (Some p) h = Resolves true →
  db_fault o1 0 = None →
  serial ∉ u_id <$> users (concurrent o1 0 (db w)) →
  Js.toLowerCase e ∉ u_email <$> users (concurrent o1 0 (db w)) →
  email (body req2) = Some e' →
  Js.toLowerCase e' = Js.toLowerCase e →
  password (body req2) = Some p →
  undisturbed o2 →
  (register o1 serial req1 w).1 = json (PUser serial (Js.toLowerCase e) (JArr []) (JArr []))
  ∧ (login o2 req2 (register o1 serial req1 w).2).1 = (register o1 serial req1 w).1.
Proof.
  intros He Hne Hp Hnp Hh Hcmp Hq Hid Hemail He' Hsame Hp' [Hq2 Hc2].
  assert (Hreg : register o1 serial req1 w
                 = (json (PUser serial (Js.toLowerCase e) (JArr []) (JArr [])),
                    with_db (Sql.insert_user serial (Js.toLowerCase e) h
                               (concurrent o1 0 (db w))).2 w)).
  { unfold register.
    rewrite He, Hp, (falsy_Some e Hne), (falsy_Some p Hnp). simpl. rewrite Hh.
    unfold pool_query. rewrite Hq.
    rewrite (insert_user_fresh _ _ _ _ Hid Hemail). reflexivity. }
  rewrite Hreg. simpl. split; [reflexivity |].
  unfold login. rewrite He', Hsame. unfold pool_query. rewrite Hq2, Hc2. simpl.
  rewrite (insert_user_fresh _ _ _ _ Hid Hemail). simpl.
  rewrite filter_app.
  rewrite (filter_none (λ u, u_email u = Js.toLowerCase e))
    by (apply not_in_fmap; exact Hemail).
  rewrite filter_cons_True by reflexivity. simpl.
  rewrite Hp', Hcmp. reflexivity.
Qed.


(** *** Accounts: likes, playlists and the fetch *)

Lemma fmap_pointwise {A B : Type} (f g : A → B) (l : list A) :
  (∀ x, f x = g x) → f <$> l = g <$> l.
Proof.
  intros H. induction l as [|a l IH]; [reflexivity |].
  rewrite !fmap_cons, H, IH. reflexivity.
Qed.

Lemma fmap_fmap {A B C : Type} (f : A → B) (g : B → C) (l : list A) :
  g <$> (f <$> l) = (λ x, g (f x)) <$> l.
Proof.
  induction l as [|a l IH]; [reflexivity |].
  rewrite !fmap_cons, IH. reflexivity.
Qed.

Lemma filter_fmap_stable {A : Type} (P : A → Prop) `{∀ x, Decision (P x)}
    (f : A → A) (l : list A) :
  (∀ x, P (f x) ↔ P x) → filter P (f <$> l) = f <$> filter P l.
Proof.
  intros Hf. induction l as [|a l IH]; [reflexivity |].
  rewrite fmap_cons, !filter_cons.
  destruct (decide (P a)) as [Ha|Ha], (decide (P (f a))) as [Hfa|Hfa].
  - rewrite fmap_cons, IH. reflexivity.
  - exfalso. apply Hfa, Hf, Ha.
  - exfalso. apply Ha, Hf, Hfa.
  - exact IH.
Qed.

Lemma set_likes_id (l : Json) (id : Z) (u : User) : u_id (Sql.set_likes l id u) = u_id u.
Proof. unfold Sql.set_likes. case_bool_decide; reflexivity. Qed.

Lemma set_playlists_id (l : Json) (id : Z) (u : User) :
  u_id (Sql.set_playlists l id u) = u_id u.
Proof. unfold Sql.set_playlists. case_bool_decide; reflexivity. Qed.

(** What either handler does once the id and the array are accepted and
    the UPDATE is answered. *)
Lemma put_likes_run (o : Oracle) (req : Request) (w : World) (id : Z) (items : list Json) :
  Js.parseInt (params_id req) = Some id → id ≠ 0 →
  likes (body req) = Some (JArr items) →
  db_fault o 0 = None →
  put_likes o req w
  = (json (PLikes (JArr items)),
     with_db (Sql.update_likes (JArr items) id (concurrent o 0 (db w))).2 w).
Proof.
  intros Hid Hnz Hl Hq. unfold put_likes.
  rewrite Hid, (falsy_num_false id Hnz), Hl. unfold pool_query. rewrite Hq. reflexivity.
Qed.

Lemma put_playlists_run (o : Oracle) (req : Request) (w : World) (id : Z)
    (items : list Json) :
  Js.parseInt (params_id req) = Some id → id ≠ 0 →
  playlists (body req) = Some (JArr items) →
  db_fault o 0 = None →
  put_playlists o req w
  = (json (PPlaylists (JArr items)),
     with_db (Sql.update_playlists (JArr items) id (concurrent o 0 (db w))).2 w).
Proof.
  intros Hid Hnz Hl Hq. unfold put_playlists.
  rewrite Hid, (falsy_num_false id Hnz), Hl. unfold pool_query. rewrite Hq. reflexivity.
Qed.

(** X4. An accepted likes update writes the likes of the rows with that
    id and nothing else: the id, address, password hash and playlists of
    every row, the rows of other users, the [tracks] table and the disk
    are what they were when the UPDATE arrived. *)
Theorem put_likes_writes_only_likes
    (o : Oracle) (req : Request) (w : World) (id : Z) (items : list Json) :
  Js.parseInt (params_id req) = Some id → id ≠ 0 →
  likes (body req) = Some (JArr items) →
  db_fault o 0 = None →
  let d0 := concurrent o 0 (db w) in
  let w' := (put_likes o req w).2 in
  u_id <$> users (db w') = u_id <$> users d0
  ∧ u_email <$> users (db w') = u_email <$> users d0
  ∧ u_password <$> users (db w') = u_password <$> users d0
  ∧ u_playlists <$> users (db w') = u_playlists <$> users d0
  ∧ (∀ v, v ∈ users d0 → u_id v ≠ id → v ∈ users (db w'))
  ∧ (∀ v, v ∈ users (db w') → u_id v = id → u_likes v = Some (JArr items))
  ∧ tracks (db w') = tracks d0
  ∧ fs w' = fs w.
Proof.
  intros Hid Hnz Hl Hq d0 w'. subst w'.
  rewrite (put_likes_run o req w id items Hid Hnz Hl Hq). simpl. fold d0.
  repeat split.
  - rewrite fmap_fmap. apply fmap_pointwise. intros u. apply set_likes_id.
  - rewrite fmap_fmap. apply fmap_pointwise. intros u.
    unfold Sql.set_likes. case_bool_decide; reflexivity.
  - rewrite fmap_fmap. apply fmap_pointwise. intros u.
    unfold Sql.set_likes. case_bool_decide; reflexivity.
  - rewrite fmap_fmap. apply fmap_pointwise. intros u.
    unfold Sql.set_likes. case_bool_decide; reflexivity.
  - intros v Hv Hne. apply list_elem_of_fmap. exists v. split; [| exact Hv].
    unfold Sql.set_likes. rewrite bool_decide_eq_false_2 by exact Hne. reflexivity.
  - intros v Hv Heq. apply list_elem_of_fmap in Hv as (u & -> & Hu).
    rewrite set_likes_id in Heq.
    unfold Sql.set_likes. rewrite bool_decide_eq_true_2 by exact Heq. reflexivity.
Qed.

(** X5. Replace the likes, then fetch the user: the fetch shows exactly
    the array that was sent, the empty array included, next to the
    address and the playlists the row already had. *)
Theorem put_likes_then_get_user
    (o1 o2 : Oracle) (req1 req2 : Request) (w : World) (id : Z) (items : list Json)
    (u : User) (rest : list User) :
  Js.parseInt (params_id req1) = Some id → id ≠ 0 →
  likes (body req1) = Some (JArr items) →
  db_fault o1 0 = None →
  filter (λ v, u_id v = id) (users (concurrent o1 0 (db w))) = u :: rest →
  Js.parseInt (params_id req2) = Some id →
  undisturbed o2 →
  (get_user o2 req2 (put_likes o1 req1 w).2).1
  = json (PUser id (u_email u) (JArr items) (json_or_empty (u_playlists u))).
Proof.
  intros Hid Hnz Hl Hq Hrow Hid2 [Hq2 Hc2].
  rewrite (put_likes_run o1 req1 w id items Hid Hnz Hl Hq).
  unfold get_user. rewrite Hid2, (falsy_num_false id Hnz).
  unfold pool_query. rewrite Hq2, Hc2. simpl.
  rewrite (filter_fmap_stable (λ v, u_id v = id))
    by (intros x; rewrite set_likes_id; reflexivity).
  rewrite Hrow. simpl.
  assert (Hu : u_id u = id).
  { assert (Hin : u ∈ filter (λ v, u_id v = id) (users (concurrent o1 0 (db w))))
      by (rewrite Hrow; left).
    apply list_elem_of_filter in Hin as [Hin _]. exact Hin. }
  unfold Sql.set_likes. rewrite bool_decide_eq_true_2 by exact Hu.
  simpl. rewrite Hu. reflexivity.
Qed.

Lemma set_likes_twice (l1 l2 : Json) (id : Z) (u : User) :
  Sql.set_likes l2 id (Sql.set_likes l1 id u) = Sql.set_likes l2 id u.
Proof.
  unfold Sql.set_likes.
  destruct (bool_decide (u_id u = id)) eqn:Hi; simpl; rewrite Hi; reflexivity.
Qed.

Lemma set_likes_playlists_commute (l p : Json) (i j : Z) (u : User) :
  Sql.set_playlists p j (Sql.set_likes l i u) = Sql.set_likes l i (Sql.set_playlists p j u).
Proof.
  unfold Sql.set_likes, Sql.set_playlists.
  destruct (bool_decide (u_id u = i)) eqn:Hi, (bool_decide (u_id u = j)) eqn:Hj;
    simpl; rewrite ?Hi, ?Hj; reflexivity.
Qed.

(** X6. Last write wins: two likes updates of the same id, one after the
    other with nothing in between, leave the database as the second one
    alone would. *)
Theorem put_likes_last_write_wins
    (o1 o2 : Oracle) (req1 req2 : Request) (w : World) (id : Z) (l1 l2 : list Json) :
  Js.parseInt (params_id req1) = Some id → id ≠ 0 →
  Js.parseInt (params_id req2) = Some id →
  likes (body req1) = Some (JArr l1) →
  likes (body req2) = Some (JArr l2) →
  undisturbed o1 → undisturbed o2 →
  db (put_likes o2 req2 (put_likes o1 req1 w).2).2 = db (put_likes o2 req2 w).2.
Proof.
  intros Hid1 Hnz Hid2 Hl1 Hl2 [Hq1 Hc1] [Hq2 Hc2].
  rewrite (put_likes_run o1 req1 w id l1 Hid1 Hnz Hl1 (Hq1 _)).
  rewrite !(put_likes_run o2 req2 _ id l2 Hid2 Hnz Hl2 (Hq2 _)).
  simpl. rewrite !Hc2, Hc1. simpl.
  f_equal. rewrite fmap_fmap. apply fmap_pointwise. intros u. apply set_likes_twice.
Qed.

(** X7. Likes and playlists are independent fields: a likes update and a
    playlists update, for the same user or for two users, leave the same
    database in either order. *)
Theorem put_likes_put_playlists_commute
    (o1 o2 : Oracle) (req1 req2 : Request) (w : World) (i j : Z) (l p : list Json) :
  Js.parseInt (params_id req1) = Some i → i ≠ 0 →
  Js.parseInt (params_id req2) = Some j → j ≠ 0 →
  likes (body req1) = Some (JArr l) →
  playlists (body req2) = Some (JArr p) →
  undisturbed o1 → undisturbed o2 →
  db (put_playlists o2 req2 (put_likes o1 req1 w).2).2
  = db (put_likes o1 req1 (put_playlists o2 req2 w).2).2.
Proof.
  intros Hi Hnzi Hj Hnzj Hl Hp [Hq1 Hc1] [Hq2 Hc2].
  rewrite !(put_likes_run o1 req1 _ i l Hi Hnzi Hl (Hq1 _)).
  rewrite !(put_playlists_run o2 req2 _ j p Hj Hnzj Hp (Hq2 _)).
  simpl. rewrite !Hc1, !Hc2. simpl.
  f_equal. rewrite !fmap_fmap. apply fmap_pointwise. intros u.
  apply set_likes_playlists_commute.
Qed.

(** X8. The fetch of a user answers 404 exactly when no row has the id
    at the time of the SELECT, and it only reads: the database, the disk
    and the console are left alone. *)
Theorem get_user_not_found_iff (o : Oracle) (req : Request) (w : World) (id : Z) :
  Js.parseInt (params_id req) = Some id → id ≠ 0 →
  db_fault o 0 = None →
  ((get_user o req w).1 = fail 404 "Пользователь не найден"
   ↔ id ∉ u_id <$> users (concurrent o 0 (db w)))
  ∧ (get_user o req w).2 = with_db (concurrent o 0 (db w)) w.
Proof.
  intros Hid Hnz Hq. unfold get_user.
  rewrite Hid, (falsy_num_false id Hnz). unfold pool_query. rewrite Hq. simpl.
  destruct (filter (λ u, u_id u = id) (users (concurrent o 0 (db w)))) as [|u rest] eqn:Hf.
  - split; [| reflexivity]. split; [| reflexivity].
    intros _ Hin. apply list_elem_of_fmap in Hin as (v & Hv & Hin).
    assert (Hvf : v ∈ filter (λ u, u_id u = id) (users (concurrent o 0 (db w))))
      by (apply list_elem_of_filter; split; [symmetry; exact Hv | exact Hin]).
    rewrite Hf in Hvf. apply not_elem_of_nil in Hvf. exact Hvf.
  - split; [| reflexivity]. split; [intros E; discriminate E |].
    intros Hn. exfalso. apply Hn.
    assert (Hu : u ∈ filter (λ u, u_id u = id) (users (concurrent o 0 (db w))))
      by (rewrite Hf; left).
    apply list_elem_of_filter in Hu as [Hu Hin].
    apply list_elem_of_fmap. exists u. split; [symmetry; exact Hu | exact Hin].
Qed.


(** *** Tracks: the list and the invariant *)

#[local] Instance newer_first_trans : Transitive Sql.newer_first.
Proof. intros a b c. unfold Sql.newer_first. lia. Qed.

#[local] Instance newer_first_total : Total Sql.newer_first.
Proof. intros a b. unfold Sql.newer_first. lia. Qed.

(** Rows with distinct ids are told apart by their ids. *)
Lemma NoDup_ids_inj (l : list Track) (a b : Track) :
  NoDup (t_id <$> l) → a ∈ l → b ∈ l → t_id a = t_id b → a = b.
Proof.
  induction l as [|x l IH]; intros Hnd Ha Hb Heq.
  - apply not_elem_of_nil in Ha. contradiction.
  - rewrite fmap_cons in Hnd. apply NoDup_cons in Hnd as [Hx Hnd].
    apply elem_of_cons in Ha as [-> | Ha]; apply elem_of_cons in Hb as [-> | Hb].
    + reflexivity.
    + exfalso. apply Hx. rewrite Heq. apply list_elem_of_fmap_2. exact Hb.
    + exfalso. apply Hx. rewrite <- Heq. apply list_elem_of_fmap_2. exact Ha.
    + apply IH; assumption.
Qed.

Lemma sorted_strict (l : list Track) :
  StronglySorted Sql.newer_first l → NoDup (t_id <$> l) →
  StronglySorted (λ a b, t_id b < t_id a) l.
Proof.
  induction 1 as [|x l Hs IH Hx]; intros Hnd; [constructor |].
  rewrite fmap_cons in Hnd. apply NoDup_cons in Hnd as [Hnx Hnd].
  constructor; [apply IH; exact Hnd |].
  rewrite Forall_forall in Hx. apply Forall_forall. intros y Hy.
  specialize (Hx y Hy). unfold Sql.newer_first in Hx.
  assert (t_id y ≠ t_id x).
  { intros Heq. apply Hnx. rewrite <- Heq. apply list_elem_of_fmap_2. exact Hy. }
  lia.
Qed.

(** X9. The track list is the whole table, newest first: the rows sent
    are a rearrangement of the rows of [tracks] in descending order of id,
    strictly descending when ids are unique, and the request only
    reads. *)
Theorem get_tracks_newest_first (o : Oracle) (w : World) :
  db_fault o 0 = None →
  ∃ rows,
    get_tracks o w = (inr rows, with_db (concurrent o 0 (db w)) w)
    ∧ rows ≡ₚ tracks (concurrent o 0 (db w))
    ∧ StronglySorted Sql.newer_first rows
    ∧ (NoDup (t_id <$> tracks (concurrent o 0 (db w))) →
       StronglySorted (λ a b, t_id b < t_id a) rows).
Proof.
  intros Hq. unfold get_tracks, pool_query. rewrite Hq. simpl.
  eexists. split; [reflexivity |].
  split; [apply merge_sort_Permutation |].
  split; [apply StronglySorted_merge_sort; apply _ |].
  intros Hnd. apply sorted_strict; [apply StronglySorted_merge_sort; apply _ |].
  rewrite merge_sort_Permutation. exact Hnd.
Qed.

Lemma insert_track_ok (t : string) (a : option string) (u : string) (d : Db) :
  tracks_ok d → tracks_ok (Sql.insert_track t a u d).2.
Proof.
  intros [Hnd Hle]. unfold tracks_ok. simpl. rewrite fmap_app. simpl. split.
  - apply NoDup_app. split; [exact Hnd |]. split; [| apply NoDup_singleton].
    intros x Hx Hx'. apply list_elem_of_singleton in Hx'. subst x.
    apply list_elem_of_fmap in Hx as (y & Hy & Hin).
    rewrite Forall_forall in Hle. specialize (Hle y Hin). lia.
  - apply Forall_app. split.
    + eapply Forall_impl; [exact Hle |]. simpl. intros x Hx. lia.
    + apply Forall_singleton. simpl. lia.
Qed.

Lemma set_title_artist_id (t : string) (a : option string) (id : Z) (x : Track) :
  t_id (Sql.set_title_artist t a id x) = t_id x.
Proof. unfold Sql.set_title_artist. case_bool_decide; reflexivity. Qed.

Lemma set_title_artist_url (t : string) (a : option string) (id : Z) (x : Track) :
  t_url (Sql.set_title_artist t a id x) = t_url x.
Proof. unfold Sql.set_title_artist. case_bool_decide; reflexivity. Qed.

Lemma update_track_ids (t : string) (a : option string) (id : Z) (d : Db) :
  t_id <$> tracks (Sql.update_track t a id d).2 = t_id <$> tracks d.
Proof.
  simpl. rewrite fmap_fmap. apply fmap_pointwise. intros x. apply set_title_artist_id.
Qed.

Lemma update_track_ok (t : string) (a : option string) (id : Z) (d : Db) :
  tracks_ok d → tracks_ok (Sql.update_track t a id d).2.
Proof.
  intros [Hnd Hle]. unfold tracks_ok. rewrite update_track_ids.
  split; [exact Hnd |]. simpl.
  apply Forall_fmap. eapply Forall_impl; [exact Hle |].
  intros x Hx. simpl. rewrite set_title_artist_id. exact Hx.
Qed.

Lemma delete_track_ok (id : Z) (d : Db) :
  tracks_ok d → tracks_ok (Sql.delete_track id d).2.
Proof.
  intros [Hnd Hle]. unfold tracks_ok. simpl. split.
  - eapply sublist_NoDup; [exact Hnd |]. apply fmap_sublist, sublist_filter.
  - rewrite Forall_forall in Hle. apply Forall_forall.
    intros x [_ Hx]%list_elem_of_filter. apply Hle, Hx.
Qed.

(** The database after one [pool.query]: the statement has run on what
    the concurrent writes left, or it was rejected and only those writes
    are there. *)
Lemma pool_query_db {A : Type} (o : Oracle) (k : nat) (stmt : Db → A * Db) (w : World) :
  db (pool_query o k stmt w).2 = concurrent o k (db w)
  ∨ db (pool_query o k stmt w).2 = (stmt (concurrent o k (db w))).2.
Proof.
  unfold pool_query. destruct (db_fault o k); [left; reflexivity |].
  destruct (stmt _); right; reflexivity.
Qed.

Lemma pool_query_keeps {A : Type} (I : Db → Prop) (o : Oracle) (k : nat)
    (stmt : Db → A * Db) (w : World) :
  (∀ d, I d → I (concurrent o k d)) →
  (∀ d, I d → I (stmt d).2) →
  I (db w) → I (db (pool_query o k stmt w).2).
Proof.
  intros Hc Hs Hw.
  destruct (pool_query_db o k stmt w) as [-> | ->]; auto.
Qed.

Lemma post_track_ok (o : Oracle) (req : Request) (w : World) :
  (∀ k d, tracks_ok d → tracks_ok (concurrent o k d)) →
  tracks_ok (db w) → tracks_ok (db (post_track o req w).2).
Proof.
  intros Hc Hw. unfold post_track.
  destruct (Js.falsy (title (body req)) || Js.falsy (url (body req))); [exact Hw |].
  match goal with
  | |- context [pool_query o 0 ?stmt w] =>
      pose proof (pool_query_keeps tracks_ok o 0 stmt w (Hc 0%nat)
                    (λ d, insert_track_ok _ _ _ d) Hw) as Hq;
      destruct (pool_query o 0 stmt w) as [[err|id] w1]
  end; exact Hq.
Qed.

Lemma put_track_ok (o : Oracle) (req : Request) (w : World) :
  (∀ k d, tracks_ok d → tracks_ok (concurrent o k d)) →
  tracks_ok (db w) → tracks_ok (db (put_track o req w).2).
Proof.
  intros Hc Hw. unfold put_track.
  destruct (Js.falsy_num _ || Js.falsy _); [exact Hw |].
  match goal with
  | |- context [pool_query o 0 ?stmt w] =>
      pose proof (pool_query_keeps tracks_ok o 0 stmt w (Hc 0%nat)
                    (λ d, update_track_ok _ _ _ d) Hw) as Hq;
      destruct (pool_query o 0 stmt w) as [[err|[|n]] w1]
  end; exact Hq.
Qed.

Lemma delete_track_handler_ok (o : Oracle) (req : Request) (w : World) :
  (∀ k d, tracks_ok d → tracks_ok (concurrent o k d)) →
  tracks_ok (db w) → tracks_ok (db (delete_track o req w).2).
Proof.
  intros Hc Hw. unfold delete_track.
  destruct (Js.falsy_num _); [exact Hw |].
  match goal with
  | |- context [pool_query o 0 ?stmt w] =>
      pose proof (pool_query_keeps tracks_ok o 0 stmt w (Hc 0%nat)
                    (λ d Hd, Hd) Hw) as Hq;
      destruct (pool_query o 0 stmt w) as [[err|[|u rest]] w1]
  end; try exact Hq.
  match goal with
  | |- context [pool_query o 1 ?stmt w1] =>
      pose proof (pool_query_keeps tracks_ok o 1 stmt w1 (Hc 1%nat)
                    (λ d, delete_track_ok _ d) Hq) as Hq1;
      destruct (pool_query o 1 stmt w1) as [[err|[|n]] w2]
  end; try exact Hq1.
  simpl. destruct (negb _ && _); [rewrite unlink_ignore_db |]; exact Hq1.
Qed.

Lemma upload_ok (o : Oracle) (req : Request) (w : World) :
  (∀ k d, tracks_ok d → tracks_ok (concurrent o k d)) →
  tracks_ok (db w) → tracks_ok (db (upload o req w).2).
Proof.
  intros Hc Hw. unfold upload.
  destruct (Js.falsy _ || negb _).
  { simpl. destruct (file req); [rewrite unlinkSync_db |]; exact Hw. }
  destruct (Js.is_empty _); [exact Hw |].
  destruct (file req) as [f|]; [| exact Hw].
  pose proof (offload_db o f w) as Hdb.
  destruct (offload o f w) as [[resp|finalUrl] w1]; simpl in Hdb.
  - simpl. rewrite Hdb. exact Hw.
  - unfold record_upload. rewrite <- Hdb in Hw.
    match goal with
    | |- context [pool_query o 0 ?stmt w1] =>
        pose proof (pool_query_keeps tracks_ok o 0 stmt w1 (Hc 0%nat)
                      (λ d, insert_track_ok _ _ _ d) Hw) as Hq;
        destruct (pool_query o 0 stmt w1) as [[err|id] w2]
    end; exact Hq.
Qed.

(** X10. Every route that writes [tracks] keeps the table well formed:
    after an insert by url, an upload, an update or a delete, whatever
    the request and whatever fails on the way, ids are still unique and
    none is ahead of the sequence, provided the writes of concurrent
    requests keep it so. *)
Theorem track_routes_keep_tracks_ok (o : Oracle) (req : Request) (w : World) :
  (∀ k d, tracks_ok d → tracks_ok (concurrent o k d)) →
  tracks_ok (db w) →
  tracks_ok (db (owner_only post_track o req w).2)
  ∧ tracks_ok (db (upload o req w).2)
  ∧ tracks_ok (db (owner_only put_track o req w).2)
  ∧ tracks_ok (db (owner_only delete_track o req w).2).
Proof.
  intros Hc Hw. unfold owner_only.
  destruct (requireOwner req); simpl; (split; [| split; [| split]]);
    first [ exact Hw
          | apply post_track_ok; assumption
          | apply upload_ok; assumption
          | apply put_track_ok; assumption
          | apply delete_track_handler_ok; assumption ].
Qed.

(** X11. Insert, then list: an accepted insert by url is answered with
    the next id of the sequence, and a list that follows shows the new
    track first and, after it, the list as it was. *)
Theorem post_track_then_list
    (o1 o2 : Oracle) (req : Request) (w : World) (t u : string) :
  title (body req) = Some t → t ≠ "" →
  url (body req) = Some u → u ≠ "" →
  db_fault o1 0 = None →
  tracks_ok (concurrent o1 0 (db w)) →
  undisturbed o2 →
  let d0 := concurrent o1 0 (db w) in
  let row := {| t_id := tracks_seq d0 + 1; t_title := t;
                t_artist := or_null (artist (body req)); t_url := u |} in
  (post_track o1 req w).1 = json (PTrack (tracks_seq d0 + 1) t (artist (body req)) u)
  ∧ (get_tracks o2 (post_track o1 req w).2).1
    = inr (row :: merge_sort Sql.newer_first (tracks d0)).
Proof.
  intros Ht Hnt Hu Hnu Hq [Hnd Hle] [Hq2 Hc2] d0 row.
  assert (Hrun : post_track o1 req w
                 = (json (PTrack (tracks_seq d0 + 1) t (artist (body req)) u),
                    with_db (Sql.insert_track t (or_null (artist (body req))) u d0).2 w)).
  { unfold post_track. rewrite Ht, Hu, (falsy_Some t Hnt), (falsy_Some u Hnu). simpl.
    unfold pool_query. rewrite Hq. reflexivity. }
  rewrite Hrun. simpl. split; [reflexivity |].
  unfold get_tracks, pool_query. rewrite Hq2, Hc2. simpl. f_equal.
  fold row.
  assert (Hfresh : ∀ x, x ∈ tracks d0 → t_id x < t_id row).
  { intros x Hx. rewrite Forall_forall in Hle. specialize (Hle x Hx).
    unfold row, d0. simpl. lia. }
  apply (StronglySorted_unique_strong Sql.newer_first).
  - intros x1 x2 Hx1 Hx2 H12 H21. unfold Sql.newer_first in *.
    rewrite merge_sort_Permutation in Hx1.
    assert (Hx2' : x2 ∈ (tracks d0 ++ [row])%list).
    { apply elem_of_cons in Hx2 as [-> | Hx2].
      - apply elem_of_app. right. left.
      - rewrite merge_sort_Permutation in Hx2. apply elem_of_app. left. exact Hx2. }
    apply (NoDup_ids_inj (tracks d0 ++ [row])%list); [| exact Hx1 | exact Hx2' | lia].
    rewrite fmap_app. apply NoDup_app. split; [exact Hnd |].
    split; [| apply NoDup_singleton].
    intros i Hi Hi'. apply list_elem_of_singleton in Hi'. subst i.
    apply list_elem_of_fmap in Hi as (y & Hy & Hin). specialize (Hfresh y Hin). lia.
  - apply StronglySorted_merge_sort; apply _.
  - constructor; [apply StronglySorted_merge_sort; apply _ |].
    apply Forall_forall. intros x Hx. rewrite merge_sort_Permutation in Hx.
    specialize (Hfresh x Hx). unfold Sql.newer_first. lia.
  - rewrite !merge_sort_Permutation. symmetry. apply Permutation_cons_append.
Qed.

(** X12. An accepted update of a track whose id exists rewrites the
    title and the artist of that row and nothing else: the ids and the
    urls of all rows, in table order, and every row with another id are
    what they were; an artist that is missing or empty is stored as NULL.
    When no row has the id the answer is 404. *)
Theorem put_track_keeps_urls
    (o : Oracle) (req : Request) (w : World) (id : Z) (t : string) :
  Js.parseInt (params_id req) = Some id → id ≠ 0 →
  title (body req) = Some t → t ≠ "" →
  db_fault o 0 = None →
  let d0 := concurrent o 0 (db w) in
  let r := put_track o req w in
  t_url <$> tracks (db r.2) = t_url <$> tracks d0
  ∧ t_id <$> tracks (db r.2) = t_id <$> tracks d0
  ∧ (∀ x, x ∈ tracks d0 → t_id x ≠ id → x ∈ tracks (db r.2))
  ∧ (∀ x, x ∈ tracks (db r.2) → t_id x = id →
       t_title x = t ∧ t_artist x = or_null (artist (body req)))
  ∧ (id ∉ t_id <$> tracks d0 → r.1 = not_found)
  ∧ (id ∈ t_id <$> tracks d0 → r.1 = json (PUpdated id t (artist (body req)))).
Proof.
  intros Hid Hnz Ht Hnt Hq d0 r.
  assert (Hrun : r = (match Sql.count_tracks id d0 with
                      | O => not_found
                      | S _ => json (PUpdated id t (artist (body req)))
                      end,
                      with_db (Sql.update_track t (or_null (artist (body req))) id d0).2 w)).
  { subst r. unfold put_track.
    rewrite Hid, (falsy_num_false id Hnz), Ht, (falsy_Some t Hnt). simpl.
    unfold pool_query. rewrite Hq. simpl. fold d0. fold (Sql.count_tracks id d0).
    destruct (Sql.count_tracks id d0); reflexivity. }
  clearbody r. subst r. simpl.
  split; [rewrite fmap_fmap; apply fmap_pointwise; intros x; apply set_title_artist_url |].
  split; [rewrite fmap_fmap; apply fmap_pointwise; intros x; apply set_title_artist_id |].
  split.
  { intros x Hx Hne. apply list_elem_of_fmap. exists x. split; [| exact Hx].
    unfold Sql.set_title_artist. rewrite bool_decide_eq_false_2 by exact Hne. reflexivity. }
  split.
  { intros x Hx Heq. apply list_elem_of_fmap in Hx as (y & -> & Hy).
    rewrite set_title_artist_id in Heq.
    unfold Sql.set_title_artist. rewrite bool_decide_eq_true_2 by exact Heq.
    split; reflexivity. }
  unfold Sql.count_tracks. split.
  - intros Hn. rewrite (filter_none (λ x, t_id x = id)); [reflexivity |].
    apply not_in_fmap. exact Hn.
  - intros Hin. apply list_elem_of_fmap in Hin as (y & Hy & Hin).
    assert (Hyf : y ∈ filter (λ x, t_id x = id) (tracks d0))
      by (apply list_elem_of_filter; split; [symmetry; exact Hy | exact Hin]).
    destruct (filter (λ x, t_id x = id) (tracks d0)); [| reflexivity].
    apply not_elem_of_nil in Hyf. contradiction.
Qed.


(** *** Rejected requests *)

(** The responses the offload returns early are all 500s. *)
Lemma offload_early_500 (o : Oracle) (f : File) (w : World) (r : Response) :
  (offload o f w).1 = inl r → status r = 500.
Proof.
  unfold offload. destruct storage_configured; [| discriminate].
  unfold offload_try, offload_catch.
  destruct (readFileSync _ _); simpl; [intros [= <-]; reflexivity |].
  destruct (fetch o _) as [st text|e]; simpl; [| intros [= <-]; reflexivity].
  destruct (negb (resp_ok st)); simpl; [intros [= <-]; reflexivity | discriminate].
Qed.

Ltac bad_request :=
  let H := fresh "H400" in
  repeat case_match; simpl; intros H; first [reflexivity | discriminate H].

(** X13. A request answered 400 has written nothing: whichever handler
    rejects an input as malformed returns with the database, the disk and
    the console exactly as it found them. *)
Theorem bad_request_writes_nothing (o : Oracle) (serial : Z) (req : Request) (w : World) :
  (status (register o serial req w).1 = 400 → (register o serial req w).2 = w)
  ∧ (status (get_user o req w).1 = 400 → (get_user o req w).2 = w)
  ∧ (status (put_likes o req w).1 = 400 → (put_likes o req w).2 = w)
  ∧ (status (put_playlists o req w).1 = 400 → (put_playlists o req w).2 = w)
  ∧ (status (post_track o req w).1 = 400 → (post_track o req w).2 = w)
  ∧ (status (put_track o req w).1 = 400 → (put_track o req w).2 = w)
  ∧ (status (delete_track o req w).1 = 400 → (delete_track o req w).2 = w)
  ∧ (status (upload o req w).1 = 400 → (upload o req w).2 = w).
Proof.
  repeat split.
  - unfold register, register_catch, pool_query. bad_request.
  - unfold get_user, pool_query. bad_request.
  - unfold put_likes, pool_query. bad_request.
  - unfold put_playlists, pool_query. bad_request.
  - unfold post_track, pool_query. bad_request.
  - unfold put_track, pool_query. bad_request.
  - unfold delete_track, pool_query. bad_request.
  - unfold upload.
    destruct (Js.falsy _ || negb _); [simpl; intros E; discriminate E |].
    destruct (Js.is_empty _); [reflexivity |].
    destruct (file req) as [f|]; [| reflexivity].
    pose proof (offload_early_500 o f w) as H500.
    destruct (offload o f w) as [[resp|finalUrl] w1]; simpl in *.
    + intros E. rewrite (H500 resp eq_refl) in E. discriminate E.
    + unfold record_upload, pool_query. bad_request.
Qed.

(** *** The owner check, in full *)

(** X14. [requireOwner] reads one token: the body field when it is
    there and not empty, and only otherwise the header.  So a wrong token
    in the body is refused even when the header carries the secret, and
    the secret in the body is accepted whatever the header says. *)
Theorem requireOwner_body_before_header (req : Request) :
  requireOwner req = None
  ↔ (if Js.falsy (adminPassword (body req))
     then x_admin_password req = Some ADMIN_PASSWORD
     else adminPassword (body req) = Some ADMIN_PASSWORD).
Proof.
  rewrite requireOwner_allows_iff.
  pose proof ADMIN_PASSWORD_nonempty as Hne.
  set (secret := ADMIN_PASSWORD) in *. clearbody secret.
  destruct (adminPassword (body req)) as [[|c b]|]; simpl.
  - destruct (x_admin_password req) as [[|c h]|]; simpl.
    + split; [intros <-; discriminate Hne | intros [= <-]; discriminate Hne].
    + split; [intros <-; reflexivity | intros [= <-]; reflexivity].
    + split; [intros <-; discriminate Hne | discriminate].
  - split; [intros <-; reflexivity | intros [= <-]; reflexivity].
  - destruct (x_admin_password req) as [[|c h]|]; simpl.
    + split; [intros <-; discriminate Hne | intros [= <-]; discriminate Hne].
    + split; [intros <-; reflexivity | intros [= <-]; reflexivity].
    + split; [intros <-; discriminate Hne | discriminate].
Qed.

(** *** Upload: the two ways to success *)

(** X15. An upload that goes through with remote storage: the object
    store answered 2xx and the INSERT was answered.  The response and the
    new row carry the public address
    [<base>/storage/v1/object/public/<bucket>/<name>], the base without
    its trailing slashes; the title and the artist are stored trimmed, an
    artist of blanks as NULL; the staged file is off the disk. *)
Theorem upload_remote_success
    (o : Oracle) (req : Request) (w : World) (f : File) (st : Z) (text : option string) :
  adminPassword (body req) = Some ADMIN_PASSWORD →
  Js.trim (Js.or_else (title (body req)) "") ≠ "" →
  file req = Some f →
  storage_configured = true →
  f_path f ∈ fs w →
  fetch o (upload_url (f_filename f)) = FetchResponse st text →
  resp_ok st = true →
  db_fault o 0 = None →
  let d0 := concurrent o 0 (db w) in
  let t := Js.trim (Js.or_else (title (body req)) "") in
  let a := Js.trim (Js.or_else (artist (body req)) "") in
  let publicUrl := Js.strip_trailing_slashes SUPABASE_URL ++ "/storage/v1/object/public/"
                   ++ (SUPABASE_BUCKET ++ "/" ++ f_filename f) in
  (upload o req w).1 = json (PTrack (tracks_seq d0 + 1) t (Some a) publicUrl)
  ∧ tracks (db (upload o req w).2)
    = (tracks d0 ++ [{| t_id := tracks_seq d0 + 1; t_title := t;
                        t_artist := or_null (Some a); t_url := publicUrl |}])%list
  ∧ f_path f ∉ fs (upload o req w).2.
Proof.
  intros Ha Ht Hf Hc Hin Hfetch Hok Hq d0 t a publicUrl.
  rewrite (upload_staged o req w f Ha Ht Hf).
  pose proof (offload_unlinks o f w Hc) as Hgone.
  pose proof (offload_db o f w) as Hdb.
  assert (Hoff : (offload o f w).1 = inr publicUrl).
  { unfold offload. rewrite Hc. unfold offload_try, readFileSync.
    rewrite (bool_decide_eq_true_2 _ Hin), Hfetch, Hok. reflexivity. }
  destruct (offload o f w) as [[resp|finalUrl] w1]; simpl in *; [discriminate Hoff |].
  injection Hoff as ->.
  unfold record_upload, pool_query. rewrite Hq, Hdb. simpl.
  split; [reflexivity |]. split; [reflexivity | exact Hgone].
Qed.

Lemma starts_with_app (p s : string) : Js.starts_with p (p ++ s) = true.
Proof.
  unfold Js.starts_with. induction p as [|c p IH]; simpl; [destruct s; reflexivity |].
  destruct (ascii_dec c c); [exact IH | contradiction].
Qed.

Lemma drop_app (p s : string) : Js.drop (String.length p) (p ++ s) = s.
Proof. induction p as [|c p IH]; simpl; [reflexivity | exact IH]. Qed.

Lemma replace_first_prefix (p r s : string) : Js.replace_first p r (p ++ s) = r ++ s.
Proof.
  assert (Hstep : ∀ x, Js.replace_first p r x
                       = if String.prefix p x then r ++ Js.drop (String.length p) x
                         else match x with
                              | EmptyString => EmptyString
                              | String c y => String c (Js.replace_first p r y)
                              end) by (intros [|c y]; reflexivity).
  pose proof (starts_with_app p s) as Hp. unfold Js.starts_with in Hp.
  rewrite Hstep, Hp, drop_app. reflexivity.
Qed.

(** X16. No orphans on the local path: without remote storage, a file
    uploaded through multer and the handler and then deleted by the id the
    upload returned leaves [tracks] as it was before the upload and the
    staged file off the disk; the delete builds, from the recorded
    [/uploads/<name>] address, the very path multer wrote to.  This holds
    when [path.join] gives, for the staged name, one path whether
    [uploads] and the name come as two segments or as [uploads/<name>]:
    the name is a timestamp, an underscore, a stem and an extension, with
    no [/] after the timestamp. *)
Theorem local_upload_then_delete
    (o1 o2 : Oracle) (req1 req2 : Request) (w : World)
    (originalname : string) (mimetype : option string) :
  path_join (path_join dirname "uploads") (Multer.filename (now o1) originalname)
    = path_join dirname ("uploads/" ++ Multer.filename (now o1) originalname) →
  storage_configured = false →
  adminPassword (body req1) = Some ADMIN_PASSWORD →
  Js.trim (Js.or_else (title (body req1)) "") ≠ "" →
  db_fault o1 0 = None →
  tracks_ok (concurrent o1 0 (db w)) →
  undisturbed o2 →
  requireOwner req2 = None →
  Js.parseInt (params_id req2) = Some (tracks_seq (concurrent o1 0 (db w)) + 1) →
  tracks_seq (concurrent o1 0 (db w)) + 1 ≠ 0 →
  let staged := path_join uploadsDir (Multer.filename (now o1) originalname) in
  let w1 := (post_upload o1 (Some (originalname, mimetype)) req1 w).2 in
  let r2 := owner_only delete_track o2 req2 w1 in
  staged ∈ fs w1
  ∧ r2.1 = json PSuccess
  ∧ tracks (db r2.2) = tracks (concurrent o1 0 (db w))
  ∧ fs r2.2 = fs w ∖ {[staged]}.
Proof.
  clear bcrypt_compare bcrypt_hash.
  intros Hjoin Hc Ha Ht Hq [Hnd Hle] [Hq2 Hc2] Hown Hid Hnz staged w1 r2.
  set (d0 := concurrent o1 0 (db w)) in *.
  set (name := Multer.filename (now o1) originalname) in *.
  set (row := {| t_id := tracks_seq d0 + 1;
                 t_title := Js.trim (Js.or_else (title (body req1)) "");
                 t_artist := or_null (Some (Js.trim (Js.or_else (artist (body req1)) "")));
                 t_url := "/uploads/" ++ name |}).
  assert (Hw1 : w1 = {| db := {| users := users d0; tracks := (tracks d0 ++ [row])%list;
                                 tracks_seq := tracks_seq d0 + 1 |};
                        fs := {[staged]} ∪ fs w; console := console w |}).
  { subst w1. unfold post_upload, upload_single. fold name. fold staged.
    erewrite upload_staged; [| exact Ha | exact Ht | reflexivity].
    rewrite offload_local by exact Hc. simpl.
    unfold record_upload, pool_query. simpl. rewrite Hq. reflexivity. }
  assert (Hrun : r2 = delete_track o2 req2 w1).
  { subst r2. unfold owner_only. rewrite Hown. reflexivity. }
  rewrite (delete_track_run o2 req2 w1 _ Hid Hnz (Hq2 _) (Hq2 _)) in Hrun.
  cbv zeta in Hrun. rewrite !Hc2 in Hrun.
  assert (Hold : ∀ x, x ∈ tracks d0 → t_id x ≠ tracks_seq d0 + 1).
  { intros x Hx. rewrite Forall_forall in Hle. specialize (Hle x Hx). lia. }
  assert (Hlookup : lookup_url (tracks_seq d0 + 1) (db w1) = Some ("/uploads/" ++ name)).
  { rewrite Hw1. unfold lookup_url. simpl. rewrite filter_app.
    rewrite (filter_none (λ x, t_id x = tracks_seq d0 + 1)) by exact Hold.
    rewrite filter_cons_True by reflexivity. reflexivity. }
  assert (Hcount : Sql.count_tracks (tracks_seq d0 + 1) (db w1) = 1%nat).
  { rewrite Hw1. unfold Sql.count_tracks. simpl. rewrite filter_app.
    rewrite (filter_none (λ x, t_id x = tracks_seq d0 + 1)) by exact Hold.
    rewrite filter_cons_True by reflexivity. reflexivity. }
  rewrite Hlookup, Hcount in Hrun.
  rewrite (starts_with_app "/uploads/" name) in Hrun.
  assert (Hpath : local_file ("/uploads/" ++ name) = staged).
  { unfold local_file. rewrite replace_first_prefix. subst staged. unfold uploadsDir.
    symmetry. exact Hjoin. }
  rewrite Hpath in Hrun. simpl in Hrun.
  clearbody r2. subst r2. rewrite Hw1. simpl.
  split; [apply elem_of_union_l, elem_of_singleton; reflexivity |].
  split; [reflexivity |].
  unfold unlink_ignore, unlinkSync. simpl.
  rewrite bool_decide_eq_true_2
    by (apply elem_of_union_l, elem_of_singleton; reflexivity).
  simpl. split.
  - rewrite filter_app.
    rewrite (filter_all (λ x, t_id x ≠ tracks_seq d0 + 1)) by exact Hold.
    rewrite filter_cons_False by (simpl; intros H; apply H; reflexivity).
    apply app_nil_r.
  - apply set_eq. intros x. rewrite !elem_of_difference, elem_of_union. tauto.
Qed.

End Server.

(** *** The staged file name *)

(** The stem of the staged name holds safe code units only. *)
Lemma sanitize_all_safe (s : string) : Multer.all_safe (Multer.sanitize s) = true.
Proof.
  induction s as [|c r IH]; [reflexivity |].
  simpl. rewrite IH. destruct (Multer.safe_char c) eqn:E; [rewrite E |]; reflexivity.
Qed.

(** ** The staged file name: what always holds *)

Lemma slash_free_get (s : string) :
  (∀ k c, String.get k s = Some c → Path.is_slash c = false) → slash_free s = true.
Proof.
  induction s as [|a r IH]; intros H; [reflexivity |].
  simpl. rewrite (H O a eq_refl). simpl.
  apply IH. intros k c Hk. apply (H (S k) c). exact Hk.
Qed.

Lemma all_safe_slash_free (s : string) : Multer.all_safe s = true → slash_free s = true.
Proof.
  induction s as [|a r IH]; [reflexivity |].
  simpl. intros [Ha Hr]%andb_true_iff. rewrite (IH Hr), andb_true_r.
  destruct a as [[] [] [] [] [] [] [] []]; try reflexivity; discriminate Ha.
Qed.

Lemma slash_free_app (a b : string) :
  slash_free a = true → slash_free b = true → slash_free (a ++ b) = true.
Proof.
  intros Ha Hb. induction a as [|c r IH]; [exact Hb |].
  simpl in *. apply andb_true_iff in Ha as [Hc Hr].
  rewrite Hc, (IH Hr). reflexivity.
Qed.

Lemma ext_step_inv (p : string) (i : nat) (c : ascii) (st : Path.ExtScan) :
  String.get i p = Some c →
  scan_inv p (Z.of_nat (S i)) st →
  let st' := Path.ext_step c (Z.of_nat i) st in
  (Path.ext_break st' = true ∧ scan_inv p (Z.of_nat (S i)) st')
  ∨ scan_inv p (Z.of_nat i) st'.
Proof.
  intros Hget (Hb & Hms & Hend & Hfree & Hdot). unfold Path.ext_step.
  destruct (Path.is_slash c) eqn:Hc.
  - destruct (Path.ext_matchedSlash st) eqn:Hm; simpl.
    + right. specialize (Hms eq_refl).
      unfold scan_inv.
      split; [lia |]. split; [auto |]. split; [intros; lia |].
      split; [intros; lia |].
      intros Hsd. destruct (Hdot Hsd) as [Hr _]. lia.
    + left. split; [reflexivity |]. unfold scan_inv. simpl.
      split; [lia |]. split; [discriminate |]. split; [exact Hend |].
      split; [exact Hfree | exact Hdot].
  - right.
    assert (Hi : ∀ j : nat, Z.of_nat i ≤ Z.of_nat j < Z.of_nat i + 1 →
              ∀ c', String.get j p = Some c' → Path.is_slash c' = false).
    { intros j Hj c' Hc'. assert (j = i) as -> by lia.
      rewrite Hget in Hc'. injection Hc' as <-. exact Hc. }
    assert (Hold : ∀ j : nat, Z.of_nat i ≤ Z.of_nat j < Path.ext_end st →
              ∀ c', String.get j p = Some c' → Path.is_slash c' = false).
    { intros j Hj c' Hc'. destruct (decide (j = i)) as [-> | Hne].
      - apply (Hi i); [lia | exact Hc'].
      - apply (Hfree j); [lia | exact Hc']. }
    assert (Hdotc : Path.is_dot c = true → String.get (Z.to_nat (Z.of_nat i)) p = Some "."%char).
    { intros Hd. rewrite Nat2Z.id. apply Ascii.eqb_eq in Hd. subst c. exact Hget. }
    destruct (Path.ext_end st =? -1) eqn:He;
      [apply Z.eqb_eq in He | apply Z.eqb_neq in He];
      destruct (Path.is_dot c) eqn:Hd; simpl;
      destruct (Path.startDot st =? -1) eqn:Hs;
      [apply Z.eqb_eq in Hs | apply Z.eqb_neq in Hs
      |apply Z.eqb_eq in Hs | apply Z.eqb_neq in Hs
      |apply Z.eqb_eq in Hs | apply Z.eqb_neq in Hs
      |apply Z.eqb_eq in Hs | apply Z.eqb_neq in Hs]; simpl;
      try (destruct (negb (Path.preDotState st =? 1))); simpl;
      unfold scan_inv; simpl.
    all: split; [lia |].
    all: split; [first [discriminate | exact Hms] |].
    all: split; [first [intros _; lia | intros _; specialize (Hend He); lia] |].
    all: split; [first [exact Hi | exact Hold] |].
    all: intros Hsd.
    all: try contradiction.
    all: try (split; [first [lia | specialize (Hend He); lia] | exact (Hdotc eq_refl)]).
    all: try (destruct (Hdot Hsd) as [Hr Hg]; split; [lia | exact Hg]).
Qed.

Lemma ext_loop_inv (p : string) (n : nat) (st : Path.ExtScan) :
  scan_inv p (Z.of_nat n) st → ∃ b, scan_inv p b (Path.ext_loop p n st).
Proof.
  revert st. induction n as [|i IH]; intros st Hinv; simpl; [eauto |].
  destruct (String.get i p) as [c|] eqn:Hget; [| eauto].
  destruct (ext_step_inv p i c st Hget Hinv) as [[Hbrk Hst] | Hst].
  - rewrite Hbrk. eauto.
  - destruct (Path.ext_break _); [eauto | apply IH; exact Hst].
Qed.

(** What [path.extname] returns is empty, or starts with a dot and holds
    no separator. *)
Lemma extname_shape (p : string) :
  Path.extname p = ""
  ∨ (String.get 0 (Path.extname p) = Some "."%char ∧ slash_free (Path.extname p) = true).
Proof.
  unfold Path.extname.
  set (st := Path.ext_loop p (String.length p) _).
  destruct (ext_loop_inv p (String.length p)
              {| Path.startDot := -1; Path.startPart := 0; Path.ext_end := -1;
                 Path.ext_matchedSlash := true; Path.preDotState := 0;
                 Path.ext_break := false |}) as (b & Hb & _ & _ & Hfree & Hdot).
  { unfold scan_inv. simpl. repeat split; try lia; try (intros; lia). }
  fold st in Hfree, Hdot.
  destruct (_ || _) eqn:Hcond; [left; reflexivity | right].
  apply orb_false_elim in Hcond as [Hcond _].
  apply orb_false_elim in Hcond as [Hcond _].
  apply orb_false_elim in Hcond as [Hsd _].
  apply Z.eqb_neq in Hsd. destruct (Hdot Hsd) as [Hr Hg].
  unfold Path.slice. split.
  - rewrite substring_correct1 by lia. exact Hg.
  - apply slash_free_get. intros k c Hk.
    destruct (Nat.lt_ge_cases k (Z.to_nat (Path.ext_end st - Path.startDot st)))
      as [Hlt | Hge].
    + rewrite substring_correct1 in Hk by exact Hlt.
      apply (Hfree (k + Z.to_nat (Path.startDot st))%nat); [lia | exact Hk].
    + rewrite substring_correct2 in Hk by exact Hge. discriminate Hk.
Qed.

(** X20. The staged name is the timestamp, an underscore, a stem and an
    extension, where the stem holds only letters, digits, [_] and [-],
    and the extension starts with a dot and, like the stem, holds no
    [/]: whatever the uploaded name is, nothing after the timestamp can
    name another directory. *)
Theorem filename_shape (now : N) (originalname : string) :
  let ext := Js.or_else (Some (Path.extname originalname)) ".mp3" in
  let stem := Multer.sanitize (Path.basename originalname ext) in
  Multer.filename now originalname = pretty now ++ "_" ++ stem ++ ext
  ∧ Multer.all_safe stem = true
  ∧ String.get 0 ext = Some "."%char
  ∧ slash_free (stem ++ ext) = true.
Proof.
  intros ext stem.
  split; [reflexivity |].
  split; [apply sanitize_all_safe |].
  assert (Hext : String.get 0 ext = Some "."%char ∧ slash_free ext = true).
  { subst ext. simpl.
    destruct (extname_shape originalname) as [-> | [Hdot Hfree]];
      [split; reflexivity |].
    destruct (Path.extname originalname); [discriminate Hdot |]. simpl. split; assumption. }
  destruct Hext as [Hdot Hfree].
  split; [exact Hdot |].
  apply slash_free_app; [apply all_safe_slash_free, sanitize_all_safe | exact Hfree].
Qed.

(** ** Start-up: the schema *)

(** The schema has what the handlers rely on: both tables, and the two
    collection columns on [users]. *)
Definition settled (sc : Schema) : Prop :=
  ∃ ucols, sc !! "users" = Some ucols ∧ "likes" ∈ ucols ∧ "playlists" ∈ ucols
           ∧ is_Some (sc !! "tracks").

Lemma schema_le_refl (sc : Schema) : schema_le sc sc.
Proof. intros t cols H. exists cols. split; [exact H | reflexivity]. Qed.

Lemma schema_le_trans (a b c : Schema) : schema_le a b → schema_le b c → schema_le a c.
Proof.
  intros Hab Hbc t cols H.
  destruct (Hab t cols H) as (cols1 & H1 & Hsub1).
  destruct (Hbc t cols1 H1) as (cols2 & H2 & Hsub2).
  exists cols2. split; [exact H2 | etransitivity; eassumption].
Qed.

Lemma create_table_le (t : string) (cols : gset string) (sc : Schema) :
  schema_le sc (create_table_if_not_exists t cols sc).
Proof.
  unfold create_table_if_not_exists.
  destruct (sc !! t) eqn:Ht; [apply schema_le_refl |].
  intros t' cols' H. exists cols'. split; [| reflexivity].
  rewrite lookup_insert_ne; [exact H |]. intros ->. congruence.
Qed.

Lemma add_column_le (t c : string) (sc sc' : Schema) :
  add_column_if_not_exists t c sc = inr sc' → schema_le sc sc'.
Proof.
  unfold add_column_if_not_exists.
  destruct (sc !! t) as [cols|] eqn:Ht; [| discriminate].
  intros [= <-] t' cols' H.
  destruct (decide (t' = t)) as [-> | Hne].
  - rewrite lookup_insert_eq. eexists. split; [reflexivity |].
    rewrite Ht in H. injection H as <-. apply union_subseteq_r.
  - rewrite lookup_insert_ne by congruence. exists cols'. split; [exact H | reflexivity].
Qed.

Lemma ddl_apply_le (s : Ddl) (sc sc' : Schema) : ddl_apply s sc = inr sc' → schema_le sc sc'.
Proof.
  destruct s; simpl.
  - intros [= <-]. apply create_table_le.
  - intros [= <-]. apply create_table_le.
  - apply add_column_le.
  - apply add_column_le.
Qed.

Lemma migrate_le (fault : Ddl → option JsError) (todo : list Ddl) (sc : Schema) :
  schema_le sc (migrate fault todo sc).1.
Proof.
  revert sc. induction todo as [|s rest IH]; intros sc; simpl; [apply schema_le_refl |].
  destruct (fault s); [apply schema_le_refl |].
  destruct (ddl_apply s sc) as [e|sc'] eqn:E; [apply schema_le_refl |].
  eapply schema_le_trans; [exact (ddl_apply_le s _ _ E) | apply IH].
Qed.

(** X17. The start-up migration only adds: whatever schema the database
    has, and wherever [initDb] stops, every table that was there is still
    there with every column it had. *)
Theorem initDb_only_adds (fault : Ddl → option JsError) (sc : Schema) :
  schema_le sc (initDb_on fault sc).1.
Proof. apply migrate_le. Qed.

(** On a settled schema every statement succeeds and changes nothing. *)
Lemma ddl_apply_settled (s : Ddl) (sc : Schema) : settled sc → ddl_apply s sc = inr sc.
Proof.
  intros (ucols & Hu & Hl & Hp & [tcols Ht]).
  destruct s; simpl; unfold create_table_if_not_exists, add_column_if_not_exists;
    rewrite ?Hu, ?Ht; try reflexivity.
  - f_equal. apply insert_id. rewrite Hu. f_equal.
    apply set_eq. intros x. rewrite elem_of_union, elem_of_singleton.
    split; [auto | intros [-> | H]; assumption].
  - f_equal. apply insert_id. rewrite Hu. f_equal.
    apply set_eq. intros x. rewrite elem_of_union, elem_of_singleton.
    split; [auto | intros [-> | H]; assumption].
Qed.

Lemma migrate_settled (fault : Ddl → option JsError) (todo : list Ddl) (sc : Schema) :
  settled sc →
  (migrate fault todo sc).1 = sc
  ∧ ((∀ s, fault s = None) → migrate fault todo sc = (sc, None)).
Proof.
  intros Hs. induction todo as [|s rest [IH1 IH2]]; simpl; [split; reflexivity |].
  rewrite (ddl_apply_settled s sc Hs). split.
  - destruct (fault s); [reflexivity | exact IH1].
  - intros Hf. rewrite (Hf s). apply IH2, Hf.
Qed.

Lemma add_column_some (t c : string) (sc : Schema) (cols : gset string) :
  sc !! t = Some cols →
  add_column_if_not_exists t c sc = inr (<[t := {[c]} ∪ cols]> sc).
Proof. intros H. unfold add_column_if_not_exists. rewrite H. reflexivity. Qed.

Lemma initDb_on_success_settled (fault : Ddl → option JsError) (sc : Schema) :
  (initDb_on fault sc).2 = None → settled (initDb_on fault sc).1.
Proof.
  unfold initDb_on, initDb_statements. simpl.
  destruct (fault CreateUsers); [discriminate |].
  destruct (fault CreateTracks); [discriminate |].
  destruct (fault AddLikesColumn); [discriminate |].
  set (sc1 := create_table_if_not_exists "users" _ sc).
  set (sc2 := create_table_if_not_exists "tracks" _ sc1).
  assert (Hu1 : is_Some (sc1 !! "users")).
  { subst sc1. unfold create_table_if_not_exists.
    destruct (sc !! "users") eqn:E; [rewrite E; eauto | rewrite lookup_insert_eq; eauto]. }
  assert (Hu2 : is_Some (sc2 !! "users")).
  { subst sc2. unfold create_table_if_not_exists.
    destruct (sc1 !! "tracks") eqn:E; [exact Hu1 |].
    rewrite lookup_insert_ne by discriminate. exact Hu1. }
  assert (Ht2 : is_Some (sc2 !! "tracks")).
  { subst sc2. unfold create_table_if_not_exists.
    destruct (sc1 !! "tracks") eqn:E; [rewrite E; eauto | rewrite lookup_insert_eq; eauto]. }
  destruct Hu2 as [ucols Hu2].
  rewrite !(add_column_some "users" "likes" sc2 ucols Hu2).
  destruct (fault AddPlaylistsColumn); [discriminate |].
  rewrite !(add_column_some "users" "playlists" _ _ (lookup_insert_eq _ _ _)).
  simpl. intros _.
  eexists. split; [apply lookup_insert_eq |].
  split.
  { apply elem_of_union. right. apply elem_of_union. left.
    apply elem_of_singleton. reflexivity. }
  split.
  { apply elem_of_union. left. apply elem_of_singleton. reflexivity. }
  rewrite !lookup_insert_ne by discriminate. exact Ht2.
Qed.

(** X18. The start-up migration is safe to run again: when [initDb] has
    gone through once, the schema has both tables and both collection
    columns, and any later run, complete or cut short, leaves that schema
    exactly as it is; with no rejection it reports no error. *)
Theorem initDb_idempotent (fault : Ddl → option JsError) (sc : Schema) :
  (initDb_on fault sc).2 = None →
  settled (initDb_on fault sc).1
  ∧ (∀ fault', (initDb_on fault' (initDb_on fault sc).1).1 = (initDb_on fault sc).1)
  ∧ initDb_on (λ _, None) (initDb_on fault sc).1 = ((initDb_on fault sc).1, None).
Proof.
  intros Hok. pose proof (initDb_on_success_settled fault sc Hok) as Hs.
  split; [exact Hs |]. split.
  - intros fault'. apply (migrate_settled fault' initDb_statements _ Hs).
  - apply (migrate_settled (λ _, None) initDb_statements _ Hs). reflexivity.
Qed.


(** ** The handlers on the sample deployment *)

(** *** Upload *)

(** A wrong token on the sample deployment (C1 at a concrete request). *)
Lemma upload_wrong_token_forbidden_witness :
  adminPassword (body (Sample.upload_request (Some "guess") "Lofi Morning"))
    ≠ Some (ADMIN_PASSWORD Sample.env_local)
  ∧ status (upload Sample.env_local Sample.quiet
              (Sample.upload_request (Some "guess") "Lofi Morning") Sample.world).1 = 403
  ∧ (Sample.staged_path
       ∉ fs (upload Sample.env_local Sample.quiet
               (Sample.upload_request (Some "guess") "Lofi Morning") Sample.world).2)
  ∧ db (upload Sample.env_local Sample.quiet
          (Sample.upload_request (Some "guess") "Lofi Morning") Sample.world).2
    = Sample.catalog.
Proof.
  assert (H : adminPassword (body (Sample.upload_request (Some "guess") "Lofi Morning"))
              ≠ Some (ADMIN_PASSWORD Sample.env_local)).
  { vm_compute. intros E. discriminate E. }
  split; [exact H |].
  destruct (upload_wrong_token_forbidden Sample.env_local Sample.quiet
              (Sample.upload_request (Some "guess") "Lofi Morning") Sample.world H)
    as (_ & Hstatus & Hfile & Hdb).
  split; [exact Hstatus |].
  split; [exact (Hfile Sample.staged eq_refl) | exact Hdb].
Defined.

(** The object store answers 503 (C2 at a concrete request). *)
Lemma upload_offload_failure_rejected_witness :
  adminPassword (body (Sample.upload_request (Some Sample.secret) "Lofi Morning"))
    = Some (ADMIN_PASSWORD Sample.env_supabase)
  ∧ storage_configured Sample.env_supabase = true
  ∧ offload_failed Sample.env_supabase Sample.storage_down Sample.staged Sample.world = true
  ∧ (∃ msg, (upload Sample.env_supabase Sample.storage_down
               (Sample.upload_request (Some Sample.secret) "Lofi Morning") Sample.world).1
            = fail 500 msg)
  ∧ tracks (db (upload Sample.env_supabase Sample.storage_down
                  (Sample.upload_request (Some Sample.secret) "Lofi Morning")
                  Sample.world).2)
    = tracks Sample.catalog.
Proof.
  assert (Ha : adminPassword (body (Sample.upload_request (Some Sample.secret) "Lofi Morning"))
               = Some (ADMIN_PASSWORD Sample.env_supabase)) by (vm_compute; reflexivity).
  assert (Ht : Js.trim (Js.or_else
                 (title (body (Sample.upload_request (Some Sample.secret) "Lofi Morning"))) "")
               ≠ "") by (vm_compute; intros E; discriminate E).
  assert (Hc : storage_configured Sample.env_supabase = true) by (vm_compute; reflexivity).
  assert (Hf : offload_failed Sample.env_supabase Sample.storage_down Sample.staged
                 Sample.world = true) by (vm_compute; reflexivity).
  destruct (upload_offload_failure_rejected Sample.env_supabase Sample.storage_down
              (Sample.upload_request (Some Sample.secret) "Lofi Morning") Sample.world
              Sample.staged Ha Ht eq_refl Hc Hf) as (Hresp & _ & Htracks).
  repeat split; assumption.
Defined.

(** C3 at a concrete request: the right secret, a title of blanks and a
    file part.  multer stages the file, the handler answers 400 and
    returns; the staged file is still on disk. *)
Theorem upload_blank_title_leaves_staged_file :
  let req := {| params_id := ""; x_admin_password := None;
                body := {| adminPassword := Some Sample.secret; title := Some "   ";
                           artist := None; url := None; email := None; password := None;
                           likes := None; playlists := None |};
                file := None |} in
  let r := post_upload Sample.env_local Sample.app_dir Sample.join Sample.quiet
             (Some ("demo.mp3", Some "audio/mpeg")) req
             {| db := Sample.catalog; fs := ∅; console := [] |} in
  r.1 = fail 400 "title обязателен"
  ∧ Sample.staged_path ∈ fs r.2
  ∧ db r.2 = Sample.catalog.
Proof. vm_compute. repeat split; reflexivity. Qed.

(** C4 as stated fails without remote storage: the upload succeeds, the
    row records [/uploads/<name>], and the staged file is still there. *)
Lemma upload_local_keeps_staged_file :
  let req := Sample.upload_request (Some Sample.secret) "Lofi Morning" in
  let r := upload Sample.env_local Sample.quiet req Sample.world in
  adminPassword (body req) = Some (ADMIN_PASSWORD Sample.env_local)
  ∧ Js.trim (Js.or_else (title (body req)) "") ≠ ""
  ∧ file req = Some Sample.staged
  ∧ r.1 = json (PTrack 9 "Lofi Morning" (Some "Beat Studio")
                  "/uploads/1700000000000_demo.mp3")
  ∧ ¬ (f_path Sample.staged ∉ fs r.2).
Proof.
  vm_compute. repeat split; try reflexivity.
  - intros E. discriminate E.
  - intros H. apply H. reflexivity.
Qed.

(** Both halves of C4 on the sample deployment with storage configured
    and the object store down. *)
Lemma upload_staged_file_fate_witness :
  adminPassword (body (Sample.upload_request (Some Sample.secret) "Lofi Morning"))
    = Some (ADMIN_PASSWORD Sample.env_supabase)
  ∧ Sample.staged_path ∈ fs Sample.world
  ∧ Sample.staged_path
      ∉ fs (upload Sample.env_supabase Sample.storage_down
              (Sample.upload_request (Some Sample.secret) "Lofi Morning") Sample.world).2.
Proof.
  assert (Ha : adminPassword (body (Sample.upload_request (Some Sample.secret) "Lofi Morning"))
               = Some (ADMIN_PASSWORD Sample.env_supabase)) by (vm_compute; reflexivity).
  assert (Ht : Js.trim (Js.or_else
                 (title (body (Sample.upload_request (Some Sample.secret) "Lofi Morning"))) "")
               ≠ "") by (vm_compute; intros E; discriminate E).
  split; [exact Ha |].
  split; [vm_compute; reflexivity |].
  destruct (upload_staged_file_fate Sample.env_supabase Sample.storage_down
              (Sample.upload_request (Some Sample.secret) "Lofi Morning") Sample.world
              Sample.staged Ha Ht eq_refl) as [Hremote _].
  apply Hremote. vm_compute. reflexivity.
Defined.

(** C9 at a concrete request: the secret sent in the [x-admin-password]
    header only.  [requireOwner] lets this request through; the upload
    handler, which reads the body field alone, answers 403 and removes the
    staged file. *)
Theorem upload_ignores_header_token :
  let req := Sample.upload_request_header_token in
  let r := upload Sample.env_local Sample.quiet req Sample.world in
  x_admin_password req = Some (ADMIN_PASSWORD Sample.env_local)
  ∧ requireOwner Sample.env_local req = None
  ∧ r.1 = forbidden
  ∧ (Sample.staged_path ∉ fs r.2)
  ∧ db r.2 = Sample.catalog.
Proof.
  vm_compute. repeat split; try reflexivity.
  intros E. discriminate E.
Qed.

(** *** Delete *)

(** C5 as stated fails at the id [0]: the request is authorized and no
    track has that id, yet the answer is the 400 of the id check, not the
    404 of a missing row. *)
Lemma delete_id_zero_is_not_not_found :
  let req := Sample.delete_request "0" in
  let r := owner_only Sample.env_local (delete_track Sample.app_dir Sample.join)
             Sample.quiet req Sample.world in
  requireOwner Sample.env_local req = None
  ∧ Js.parseInt (params_id req) = Some 0
  ∧ lookup_url 0 (db Sample.world) = None
  ∧ r.1 = fail 400 "id обязателен"
  ∧ r.1 ≠ not_found.
Proof.
  vm_compute. repeat split; try reflexivity.
  intros E. discriminate E.
Qed.

(** Deleting track 7 of the sample catalog, whose url is local: the row
    and the file go.  The same request when the file is already missing:
    the answer is the same success. *)
Lemma delete_track_outcomes_witness :
  requireOwner Sample.env_local (Sample.delete_request "7") = None
  ∧ Js.parseInt (params_id (Sample.delete_request "7")) = Some 7
  ∧ (owner_only Sample.env_local (delete_track Sample.app_dir Sample.join)
       Sample.quiet (Sample.delete_request "7") Sample.world).1 = json PSuccess
  ∧ (Sample.staged_path
       ∉ fs (owner_only Sample.env_local (delete_track Sample.app_dir Sample.join)
               Sample.quiet (Sample.delete_request "7") Sample.world).2)
  ∧ (∀ t, t ∈ tracks (db (owner_only Sample.env_local
                            (delete_track Sample.app_dir Sample.join)
                            Sample.quiet (Sample.delete_request "7") Sample.world).2) →
          t_id t ≠ 7)
  ∧ (owner_only Sample.env_local (delete_track Sample.app_dir Sample.join)
       Sample.quiet (Sample.delete_request "7") Sample.world_no_file).1 = json PSuccess.
Proof.
  assert (Hown : requireOwner Sample.env_local (Sample.delete_request "7") = None)
    by (vm_compute; reflexivity).
  assert (Hid : Js.parseInt (params_id (Sample.delete_request "7")) = Some 7)
    by (vm_compute; reflexivity).
  assert (Hnz : 7 ≠ 0) by lia.
  assert (Hu : lookup_url 7 (concurrent Sample.quiet 0 (db Sample.world))
               = Some "/uploads/1700000000000_demo.mp3") by (vm_compute; reflexivity).
  assert (Hcount : Sql.count_tracks 7
                     (concurrent Sample.quiet 1 (concurrent Sample.quiet 0 (db Sample.world)))
                   ≠ 0%nat) by (vm_compute; intros E; discriminate E).
  destruct (delete_track_outcomes Sample.env_local Sample.app_dir Sample.join Sample.quiet
              (Sample.delete_request "7") Sample.world Hown) as [_ Hok].
  destruct (Hok 7 Hid Hnz eq_refl eq_refl) as (_ & _ & Hrow).
  destruct (Hrow _ Hu Hcount) as (Hresp & _ & Hgone & Hlocal & _).
  destruct (Hlocal eq_refl) as [Hfile _].
  destruct (delete_track_outcomes Sample.env_local Sample.app_dir Sample.join Sample.quiet
              (Sample.delete_request "7") Sample.world_no_file Hown) as [_ Hok'].
  destruct (Hok' 7 Hid Hnz eq_refl eq_refl) as (_ & _ & Hrow').
  destruct (Hrow' _ Hu Hcount) as (Hresp' & _).
  split; [exact Hown |].
  split; [exact Hid |].
  split; [exact Hresp |].
  split; [exact Hfile |].
  split; [exact Hgone | exact Hresp'].
Defined.

Example delete_remote_track_keeps_disk :
  let r := owner_only Sample.env_local (delete_track Sample.app_dir Sample.join)
             Sample.quiet (Sample.delete_request "8") Sample.world in
  r.1 = json PSuccess ∧ fs r.2 = fs Sample.world ∧ t_id <$> tracks (db r.2) = [7].
Proof. vm_compute. repeat split; reflexivity. Qed.

Example delete_lost_race_is_not_found :
  let r := owner_only Sample.env_local (delete_track Sample.app_dir Sample.join)
             Sample.racing (Sample.delete_request "7") Sample.world in
  r.1 = not_found ∧ Sample.staged_path ∈ fs r.2.
Proof. vm_compute. repeat split; reflexivity. Qed.

Example delete_unknown_id_is_not_found :
  (owner_only Sample.env_local (delete_track Sample.app_dir Sample.join)
     Sample.quiet (Sample.delete_request "99") Sample.world).1 = not_found.
Proof. vm_compute. reflexivity. Qed.

(** *** Login *)

(** An unknown address and a wrong password on the sample deployment. *)
Lemma login_failures_indistinguishable_witness :
  Sql.select_user_by_email (Js.toLowerCase "Bob@Example.com") Sample.catalog = ([], Sample.catalog)
  ∧ Sample.compare (Some "guess") "$2b$10$pw" = Resolves false
  ∧ (login Sample.compare Sample.quiet (Sample.login_request "Bob@Example.com" "pw")
       Sample.world).1
    = (login Sample.compare Sample.quiet (Sample.login_request "Ann@Example.com" "guess")
         Sample.world).1
  ∧ (login Sample.compare Sample.quiet (Sample.login_request "Bob@Example.com" "pw")
       Sample.world).1 = invalid_credentials.
Proof.
  split; [vm_compute; reflexivity |].
  split; [vm_compute; reflexivity |].
  destruct (login_failures_indistinguishable Sample.compare Sample.quiet Sample.quiet
              (Sample.login_request "Bob@Example.com" "pw")
              (Sample.login_request "Ann@Example.com" "guess")
              Sample.world Sample.world "Bob@Example.com" "Ann@Example.com"
              {| u_id := 1; u_email := "ann@example.com"; u_password := "$2b$10$pw";
                 u_likes := Some (JArr [JStr "7"]); u_playlists := Some (JArr []) |} [])
    as (Hsame & Hresp & _);
    try (vm_compute; reflexivity).
  split; [exact Hsame | exact Hresp].
Defined.

(** C8 at two concrete requests that carry no password: the address
    that has an account is answered 500 with the message of the rejected
    comparison, the address that has none is answered 401, so the two
    answers tell whether the account exists. *)
Theorem login_missing_password_tells_accounts_apart :
  let known := Sample.account_request (Some "ann@example.com") None in
  let unknown := Sample.account_request (Some "bob@example.com") None in
  (Sql.select_user_by_email "ann@example.com" Sample.catalog).1 ≠ []
  ∧ (Sql.select_user_by_email "bob@example.com" Sample.catalog).1 = []
  ∧ (login Sample.compare Sample.quiet unknown Sample.world).1 = invalid_credentials
  ∧ (login Sample.compare Sample.quiet known Sample.world).1
    = fail 500 "Ошибка БД: data and hash arguments required"
  ∧ (login Sample.compare Sample.quiet known Sample.world).1
    ≠ (login Sample.compare Sample.quiet unknown Sample.world).1.
Proof.
  vm_compute. repeat split; try reflexivity; intros E; discriminate E.
Qed.

Example login_right_password :
  (login Sample.compare Sample.quiet (Sample.login_request "Ann@Example.com" "pw")
     Sample.world).1
  = json (PUser 1 "ann@example.com" (JArr [JStr "7"]) (JArr [])).
Proof. vm_compute. reflexivity. Qed.

(** *** Likes and playlists *)

(** C10 as stated fails at the id [0]: no user has it and the input is an
    array, yet the answer is the 400 of the id check, not a success. *)
Lemma put_likes_id_zero_is_rejected :
  let req := Sample.collection_request "0" [JStr "7"] in
  (∀ u, u ∈ users (db Sample.world) → u_id u ≠ 0)
  ∧ isArray (likes (body req)) = true
  ∧ (put_likes Sample.quiet req Sample.world).1 = fail 400 "id обязателен"
  ∧ (put_likes Sample.quiet req Sample.world).1 ≠ json (PLikes (JArr [JStr "7"]))
  ∧ (put_playlists Sample.quiet req Sample.world).1 = fail 400 "id обязателен".
Proof.
  simpl. split.
  - intros u Hu. apply list_elem_of_singleton in Hu. subst u. simpl. lia.
  - vm_compute. repeat split; try reflexivity. intros E. discriminate E.
Qed.

(** The id 42 has no row in the sample catalog. *)
Lemma replace_collection_missing_user_witness :
  Js.parseInt (params_id (Sample.collection_request "42" [JStr "7"])) = Some 42
  ∧ (∀ u, u ∈ users (db Sample.world) → u_id u ≠ 42)
  ∧ (put_likes Sample.quiet (Sample.collection_request "42" [JStr "7"]) Sample.world).1
    = json (PLikes (JArr [JStr "7"]))
  ∧ (put_playlists Sample.quiet (Sample.collection_request "42" [JStr "7"]) Sample.world).1
    = json (PPlaylists (JArr [JStr "7"]))
  ∧ db (put_likes Sample.quiet (Sample.collection_request "42" [JStr "7"]) Sample.world).2
    = Sample.catalog.
Proof.
  assert (Hid : Js.parseInt (params_id (Sample.collection_request "42" [JStr "7"])) = Some 42)
    by (vm_compute; reflexivity).
  assert (Hnone : ∀ u, u ∈ users (concurrent Sample.quiet 0 (db Sample.world)) → u_id u ≠ 42).
  { simpl. intros u Hu. apply list_elem_of_singleton in Hu. subst u. simpl. lia. }
  assert (Hnz : 42 ≠ 0) by lia.
  destruct (replace_collection_missing_user Sample.quiet
              (Sample.collection_request "42" [JStr "7"]) Sample.world) as [_ Hok].
  destruct (Hok 42 [JStr "7"] Hid Hnz eq_refl Hnone) as [Hlikes Hplaylists].
  destruct (Hlikes eq_refl) as [Hl Hdb].
  destruct (Hplaylists eq_refl) as [Hp _].
  split; [exact Hid |].
  split; [exact Hnone |].
  split; [exact Hl |].
  split; [exact Hp | exact Hdb].
Defined.

(** *** Start-up *)

(** C7 as stated fails when the database cannot be reached: the first
    statement is rejected, nothing of the schema exists, and the server
    listens. *)
Lemma start_listens_after_ddl_failure :
  (initDb Sample.ddl_down).2 ≠ None
  ∧ schema (start Sample.env_local Sample.ddl_down) = []
  ∧ listening (start Sample.env_local Sample.ddl_down) = true
  ∧ ¬ (listening (start Sample.env_local Sample.ddl_down) = false).
Proof.
  vm_compute. repeat split; try reflexivity; intros E; discriminate E.
Qed.

(** A column migration that is rejected after both tables were created. *)
Lemma start_ddl_failure_logged_not_fatal_witness :
  Sample.migration_fails AddLikesColumn
    = Some {| err_code := "42501"; err_message := "must be owner of table users" |}
  ∧ schema (start Sample.env_local Sample.migration_fails) = [CreateUsers; CreateTracks]
  ∧ out (start Sample.env_local Sample.migration_fails)
    = ["Server running on http://localhost:3000";
       "DB init error: must be owner of table users"]
  ∧ listening (start Sample.env_local Sample.migration_fails) = true.
Proof.
  assert (Hpre : Forall (λ x, Sample.migration_fails x = None) [CreateUsers; CreateTracks]).
  { repeat constructor. }
  destruct (start_ddl_failure_logged_not_fatal Sample.env_local Sample.migration_fails
              [CreateUsers; CreateTracks] [AddPlaylistsColumn] AddLikesColumn
              {| err_code := "42501"; err_message := "must be owner of table users" |}
              eq_refl Hpre eq_refl) as (Hschema & Hout & Hlisten).
  split; [reflexivity |].
  split; [exact Hschema |].
  split; [exact Hout | exact Hlisten].
Defined.

(** *** The staged file name *)

(** C6 at a concrete name: the extension is copied as it came, so the
    [?], [=] and [&] of this name reach the staged file name and, through
    it, the storage address. *)
Theorem filename_keeps_unsafe_extension :
  Path.extname "demo.mp3?x=1&y=2" = ".mp3?x=1&y=2"
  ∧ Multer.filename 1700000000000 "demo.mp3?x=1&y=2" = "1700000000000_demo.mp3?x=1&y=2"
  ∧ Multer.clean_name (Multer.filename 1700000000000 "demo.mp3?x=1&y=2") = false
  ∧ upload_url Sample.env_supabase (Multer.filename 1700000000000 "demo.mp3?x=1&y=2")
    = "https://proj.supabase.co/storage/v1/object/music/1700000000000_demo.mp3?x=1&y=2".
Proof. vm_compute. repeat split; reflexivity. Qed.

(** ** More of the handlers on the sample deployment *)

Lemma quiet_undisturbed : undisturbed Sample.quiet.
Proof. split; intros; reflexivity. Qed.

Lemma sample_users_ok : users_ok Sample.catalog.
Proof. apply (bool_decide_unpack _). vm_compute. reflexivity. Qed.

Lemma sample_tracks_ok : tracks_ok Sample.catalog.
Proof. apply (bool_decide_unpack _). vm_compute. reflexivity. Qed.

(** *** Accounts *)

(** Ann is registered; a second registration of her address in capitals
    is refused. *)
Lemma register_duplicate_conflict_witness :
  Js.toLowerCase "ANN@Example.com" ∈ u_email <$> users Sample.catalog
  ∧ (register Sample.hash Sample.quiet 2
       (Sample.account_request (Some "ANN@Example.com") (Some "other")) Sample.world).1
    = fail 409 "Пользователь уже существует"
  ∧ db (register Sample.hash Sample.quiet 2
          (Sample.account_request (Some "ANN@Example.com") (Some "other")) Sample.world).2
    = Sample.catalog.
Proof.
  assert (Hin : Js.toLowerCase "ANN@Example.com"
                ∈ u_email <$> users (concurrent Sample.quiet 0 (db Sample.world))).
  { vm_compute. left. }
  split; [exact Hin |].
  destruct (register_duplicate_conflict Sample.hash Sample.quiet 2
              (Sample.account_request (Some "ANN@Example.com") (Some "other"))
              Sample.world "ANN@Example.com" "other" "$2b$10$other")
    as (Hresp & Hdb & _); try reflexivity; try discriminate; try exact Hin.
  split; [exact Hresp | exact Hdb].
Defined.

(** The table stays well formed when Bob registers. *)
Lemma register_keeps_users_ok_witness :
  users_ok (db Sample.world)
  ∧ users_ok (db (register Sample.hash Sample.quiet 2
                    (Sample.account_request (Some "Bob@Example.com") (Some "pw2"))
                    Sample.world).2)
  ∧ u_email <$> users (db (register Sample.hash Sample.quiet 2
                             (Sample.account_request (Some "Bob@Example.com") (Some "pw2"))
                             Sample.world).2)
    = ["ann@example.com"; "bob@example.com"].
Proof.
  split; [exact sample_users_ok |].
  split; [| vm_compute; reflexivity].
  apply (register_keeps_users_ok Sample.hash Sample.quiet 2
           (Sample.account_request (Some "Bob@Example.com") (Some "pw2")) Sample.world).
  - exact sample_users_ok.
  - intros d Hd. exact Hd.
Defined.

(** Bob registers and logs in, typing his address in another case. *)
Lemma register_then_login_witness :
  Sample.hash "pw2" = inr "$2b$10$pw2"
  ∧ Sample.compare (Some "pw2") "$2b$10$pw2" = Resolves true
  ∧ (register Sample.hash Sample.quiet 2
       (Sample.account_request (Some "Bob@Example.com") (Some "pw2")) Sample.world).1
    = json (PUser 2 "bob@example.com" (JArr []) (JArr []))
  ∧ (login Sample.compare Sample.quiet
       (Sample.account_request (Some "BOB@example.COM") (Some "pw2"))
       (register Sample.hash Sample.quiet 2
          (Sample.account_request (Some "Bob@Example.com") (Some "pw2")) Sample.world).2).1
    = json (PUser 2 "bob@example.com" (JArr []) (JArr [])).
Proof.
  split; [reflexivity |]. split; [reflexivity |].
  destruct (register_then_login Sample.compare Sample.hash Sample.quiet Sample.quiet 2
              (Sample.account_request (Some "Bob@Example.com") (Some "pw2"))
              (Sample.account_request (Some "BOB@example.COM") (Some "pw2"))
              Sample.world "Bob@Example.com" "BOB@example.COM" "pw2" "$2b$10$pw2")
    as [Hreg Hlogin];
    try reflexivity; try discriminate; try exact quiet_undisturbed;
    try (vm_compute; intros H; apply list_elem_of_singleton in H; discriminate H).
  split; [exact Hreg |]. rewrite Hlogin. exact Hreg.
Defined.

(** Ann replaces her likes; nothing else of her row moves. *)
Lemma put_likes_writes_only_likes_witness :
  Js.parseInt (params_id (Sample.collection_request "1" [JStr "8"])) = Some 1
  ∧ u_likes <$> users (db (put_likes Sample.quiet
                             (Sample.collection_request "1" [JStr "8"]) Sample.world).2)
    = [Some (JArr [JStr "8"])]
  ∧ u_playlists <$> users (db (put_likes Sample.quiet
                                 (Sample.collection_request "1" [JStr "8"]) Sample.world).2)
    = u_playlists <$> users Sample.catalog
  ∧ tracks (db (put_likes Sample.quiet
                  (Sample.collection_request "1" [JStr "8"]) Sample.world).2)
    = tracks Sample.catalog.
Proof.
  assert (Hnz : 1 ≠ 0) by lia.
  destruct (put_likes_writes_only_likes Sample.quiet
              (Sample.collection_request "1" [JStr "8"]) Sample.world 1 [JStr "8"]
              eq_refl Hnz eq_refl eq_refl)
    as (_ & _ & _ & Hpl & _ & _ & Htr & _).
  split; [reflexivity |].
  split; [vm_compute; reflexivity |].
  split; [exact Hpl | exact Htr].
Defined.

(** Ann clears her likes and fetches her account. *)
Lemma put_likes_then_get_user_witness :
  filter (λ v, u_id v = 1) (users Sample.catalog) = users Sample.catalog
  ∧ (get_user Sample.quiet (Sample.id_request "1")
       (put_likes Sample.quiet (Sample.collection_request "1" []) Sample.world).2).1
    = json (PUser 1 "ann@example.com" (JArr []) (JArr [])).
Proof.
  assert (Hrow : filter (λ v, u_id v = 1) (users (concurrent Sample.quiet 0 (db Sample.world)))
                 = [{| u_id := 1; u_email := "ann@example.com"; u_password := "$2b$10$pw";
                       u_likes := Some (JArr [JStr "7"]); u_playlists := Some (JArr []) |}])
    by (vm_compute; reflexivity).
  assert (Hnz : 1 ≠ 0) by lia.
  split; [exact Hrow |].
  exact (put_likes_then_get_user Sample.quiet Sample.quiet
           (Sample.collection_request "1" []) (Sample.id_request "1") Sample.world 1 []
           _ [] eq_refl Hnz eq_refl eq_refl Hrow eq_refl quiet_undisturbed).
Defined.

(** Two likes updates in a row. *)
Lemma put_likes_last_write_wins_witness :
  u_likes <$> users (db (put_likes Sample.quiet (Sample.collection_request "1" [JStr "8"])
                           (put_likes Sample.quiet
                              (Sample.collection_request "1" [JStr "7"; JStr "8"])
                              Sample.world).2).2)
  = [Some (JArr [JStr "8"])]
  ∧ db (put_likes Sample.quiet (Sample.collection_request "1" [JStr "8"])
          (put_likes Sample.quiet (Sample.collection_request "1" [JStr "7"; JStr "8"])
             Sample.world).2).2
    = db (put_likes Sample.quiet (Sample.collection_request "1" [JStr "8"]) Sample.world).2.
Proof.
  assert (Hnz : 1 ≠ 0) by lia.
  split; [vm_compute; reflexivity |].
  exact (put_likes_last_write_wins Sample.quiet Sample.quiet
           (Sample.collection_request "1" [JStr "7"; JStr "8"])
           (Sample.collection_request "1" [JStr "8"]) Sample.world 1
           [JStr "7"; JStr "8"] [JStr "8"] eq_refl Hnz eq_refl eq_refl eq_refl
           quiet_undisturbed quiet_undisturbed).
Defined.

(** A likes update and a playlists update of the same user, both ways. *)
Lemma put_likes_put_playlists_commute_witness :
  db (put_playlists Sample.quiet (Sample.collection_request "1" [JStr "mix"])
        (put_likes Sample.quiet (Sample.collection_request "1" [JStr "8"]) Sample.world).2).2
  = db (put_likes Sample.quiet (Sample.collection_request "1" [JStr "8"])
          (put_playlists Sample.quiet (Sample.collection_request "1" [JStr "mix"])
             Sample.world).2).2.
Proof.
  assert (Hnz : 1 ≠ 0) by lia.
  exact (put_likes_put_playlists_commute Sample.quiet Sample.quiet
           (Sample.collection_request "1" [JStr "8"])
           (Sample.collection_request "1" [JStr "mix"]) Sample.world 1 1
           [JStr "8"] [JStr "mix"] eq_refl Hnz eq_refl Hnz eq_refl eq_refl
           quiet_undisturbed quiet_undisturbed).
Defined.

(** No user has the id 42. *)
Lemma get_user_not_found_iff_witness :
  Js.parseInt (params_id (Sample.id_request "42")) = Some 42
  ∧ (42 ∉ u_id <$> users Sample.catalog)
  ∧ (get_user Sample.quiet (Sample.id_request "42") Sample.world).1
    = fail 404 "Пользователь не найден"
  ∧ (get_user Sample.quiet (Sample.id_request "42") Sample.world).2 = Sample.world.
Proof.
  assert (Hnz : 42 ≠ 0) by lia.
  assert (Hnone : 42 ∉ u_id <$> users (concurrent Sample.quiet 0 (db Sample.world))).
  { vm_compute. intros H. apply list_elem_of_singleton in H. discriminate H. }
  destruct (get_user_not_found_iff Sample.quiet (Sample.id_request "42") Sample.world 42
              eq_refl Hnz eq_refl) as [Hiff Hw].
  split; [reflexivity |].
  split; [exact Hnone |].
  split; [apply Hiff; exact Hnone | exact Hw].
Defined.

(** *** Tracks *)

(** The list of the sample catalog. *)
Lemma get_tracks_newest_first_witness :
  db_fault Sample.quiet 0 = None
  ∧ ∃ rows, get_tracks Sample.quiet Sample.world = (inr rows, Sample.world)
            ∧ t_id <$> rows = [8; 7]
            ∧ StronglySorted (λ a b, t_id b < t_id a) rows.
Proof.
  split; [reflexivity |].
  destruct (get_tracks_newest_first Sample.quiet Sample.world eq_refl)
    as (rows & Hrun & _ & _ & Hstrict).
  exists rows. split; [exact Hrun |].
  split.
  - assert (Hrows : (get_tracks Sample.quiet Sample.world).1
                    = inr (merge_sort Sql.newer_first (tracks Sample.catalog)))
      by reflexivity.
    rewrite Hrun in Hrows. injection Hrows as ->. vm_compute. reflexivity.
  - apply Hstrict. apply sample_tracks_ok.
Defined.

(** The four routes on the sample catalog. *)
Lemma track_routes_keep_tracks_ok_witness :
  tracks_ok (db Sample.world)
  ∧ tracks_ok (db (owner_only Sample.env_local post_track Sample.quiet
                     (Sample.track_request "" (Some "Soft Piano") None (Some "https://x/p.mp3"))
                     Sample.world).2)
  ∧ tracks_ok (db (owner_only Sample.env_local (delete_track Sample.app_dir Sample.join)
                     Sample.quiet (Sample.delete_request "7") Sample.world).2).
Proof.
  split; [exact sample_tracks_ok |].
  destruct (track_routes_keep_tracks_ok Sample.env_local Sample.app_dir Sample.join
              Sample.quiet
              (Sample.track_request "" (Some "Soft Piano") None (Some "https://x/p.mp3"))
              Sample.world (λ k d Hd, Hd) sample_tracks_ok) as (Hpost & _ & _ & _).
  destruct (track_routes_keep_tracks_ok Sample.env_local Sample.app_dir Sample.join
              Sample.quiet (Sample.delete_request "7")
              Sample.world (λ k d Hd, Hd) sample_tracks_ok) as (_ & _ & _ & Hdel).
  split; [exact Hpost | exact Hdel].
Defined.

(** A track is added by url and the list is asked for. *)
Lemma post_track_then_list_witness :
  tracks_ok (concurrent Sample.quiet 0 (db Sample.world))
  ∧ (post_track Sample.quiet
       (Sample.track_request "" (Some "Soft Piano") None (Some "https://x/p.mp3"))
       Sample.world).1
    = json (PTrack 9 "Soft Piano" None "https://x/p.mp3")
  ∧ (λ r, match r with inr rows => t_id <$> rows | inl _ => [] end)
      (get_tracks Sample.quiet
         (post_track Sample.quiet
            (Sample.track_request "" (Some "Soft Piano") None (Some "https://x/p.mp3"))
            Sample.world).2).1
    = [9; 8; 7].
Proof.
  split; [exact sample_tracks_ok |].
  destruct (post_track_then_list Sample.quiet Sample.quiet
              (Sample.track_request "" (Some "Soft Piano") None (Some "https://x/p.mp3"))
              Sample.world "Soft Piano" "https://x/p.mp3")
    as [Hresp Hlist];
    try reflexivity; try discriminate; try exact quiet_undisturbed;
    try exact sample_tracks_ok.
  split; [exact Hresp |].
  rewrite Hlist. vm_compute. reflexivity.
Defined.

(** Track 8 gets a new title and no artist. *)
Lemma put_track_keeps_urls_witness :
  Js.parseInt (params_id (Sample.track_request "8" (Some "City Night") (Some "") None))
    = Some 8
  ∧ (put_track Sample.quiet (Sample.track_request "8" (Some "City Night") (Some "") None)
       Sample.world).1
    = json (PUpdated 8 "City Night" (Some ""))
  ∧ t_url <$> tracks (db (put_track Sample.quiet
                            (Sample.track_request "8" (Some "City Night") (Some "") None)
                            Sample.world).2)
    = t_url <$> tracks Sample.catalog
  ∧ (λ x, (t_title x, t_artist x))
      <$> tracks (db (put_track Sample.quiet
                        (Sample.track_request "8" (Some "City Night") (Some "") None)
                        Sample.world).2)
    = [("Lofi Morning", Some "Beat Studio"); ("City Night", None)].
Proof.
  assert (Hnz : 8 ≠ 0) by lia.
  assert (Hin : 8 ∈ t_id <$> tracks (concurrent Sample.quiet 0 (db Sample.world))).
  { vm_compute. right. left. }
  destruct (put_track_keeps_urls Sample.quiet
              (Sample.track_request "8" (Some "City Night") (Some "") None)
              Sample.world 8 "City Night" eq_refl Hnz eq_refl)
    as (Hurls & _ & _ & _ & _ & Hresp); try reflexivity; try discriminate.
  split; [reflexivity |].
  split; [exact (Hresp Hin) |].
  split; [exact Hurls | vm_compute; reflexivity].
Defined.

(** *** Upload *)

(** The sample upload with the object store answering 200. *)
Lemma upload_remote_success_witness :
  storage_configured Sample.env_supabase = true
  ∧ Sample.staged_path ∈ fs Sample.world
  ∧ (upload Sample.env_supabase Sample.quiet
       (Sample.upload_request (Some Sample.secret) " Lofi Morning ") Sample.world).1
    = json (PTrack 9 "Lofi Morning" (Some "Beat Studio")
              "https://proj.supabase.co/storage/v1/object/public/music/1700000000000_demo.mp3")
  ∧ (Sample.staged_path
       ∉ fs (upload Sample.env_supabase Sample.quiet
               (Sample.upload_request (Some Sample.secret) " Lofi Morning ") Sample.world).2).
Proof.
  assert (Hin : f_path Sample.staged ∈ fs Sample.world) by (vm_compute; reflexivity).
  destruct (upload_remote_success Sample.env_supabase Sample.quiet
              (Sample.upload_request (Some Sample.secret) " Lofi Morning ") Sample.world
              Sample.staged 200 (Some "{}"))
    as (Hresp & _ & Hgone);
    try reflexivity; try exact Hin; try (vm_compute; intros E; discriminate E).
  split; [reflexivity |].
  split; [exact Hin |].
  split; [| exact Hgone].
  rewrite Hresp. vm_compute. reflexivity.
Defined.

(** A file goes up to the local disk and is deleted again. *)
Lemma local_upload_then_delete_witness :
  Sample.join (Sample.join Sample.app_dir "uploads")
    (Multer.filename (now Sample.quiet) "new.mp3")
  = "/app/uploads/1700000000000_new.mp3"
  ∧ Sample.join Sample.app_dir ("uploads/" ++ Multer.filename (now Sample.quiet) "new.mp3")
    = "/app/uploads/1700000000000_new.mp3"
  ∧ storage_configured Sample.env_local = false
  ∧ tracks (db (owner_only Sample.env_local (delete_track Sample.app_dir Sample.join)
                  Sample.quiet (Sample.delete_request "9")
                  (post_upload Sample.env_local Sample.app_dir Sample.join Sample.quiet
                     (Some ("new.mp3", Some "audio/mpeg"))
                     (Sample.upload_request (Some Sample.secret) "Soft Piano")
                     Sample.world).2).2)
    = tracks Sample.catalog
  ∧ fs (owner_only Sample.env_local (delete_track Sample.app_dir Sample.join)
          Sample.quiet (Sample.delete_request "9")
          (post_upload Sample.env_local Sample.app_dir Sample.join Sample.quiet
             (Some ("new.mp3", Some "audio/mpeg"))
             (Sample.upload_request (Some Sample.secret) "Soft Piano")
             Sample.world).2).2
    = fs Sample.world.
Proof.
  assert (Hjoin : Sample.join (Sample.join Sample.app_dir "uploads")
                    (Multer.filename (now Sample.quiet) "new.mp3")
                  = Sample.join Sample.app_dir
                      ("uploads/" ++ Multer.filename (now Sample.quiet) "new.mp3"))
    by (vm_compute; reflexivity).
  assert (Hnz : tracks_seq (concurrent Sample.quiet 0 (db Sample.world)) + 1 ≠ 0)
    by (vm_compute; intros E; discriminate E).
  destruct (local_upload_then_delete Sample.env_local Sample.app_dir Sample.join
              Sample.quiet Sample.quiet
              (Sample.upload_request (Some Sample.secret) "Soft Piano")
              (Sample.delete_request "9") Sample.world "new.mp3" (Some "audio/mpeg")
              Hjoin)
    as (_ & _ & Htracks & Hfs);
    try reflexivity; try exact quiet_undisturbed; try exact sample_tracks_ok;
    try exact Hnz; try (vm_compute; intros E; discriminate E).
  split; [vm_compute; reflexivity |].
  split; [vm_compute; reflexivity |].
  split; [reflexivity |].
  split; [exact Htracks |].
  rewrite Hfs. vm_compute. reflexivity.
Defined.

(** *** Start-up *)

(** An older database: [users] without the collection columns. *)
Lemma initDb_idempotent_witness :
  (initDb_on (λ _, None) Sample.old_schema).2 = None
  ∧ (initDb_on (λ _, None) Sample.old_schema).1
    = {["users" := {["id"; "email"; "password"; "created_at"; "likes"; "playlists"]};
        "tracks" := {["id"; "title"; "artist"; "url"]}]}
  ∧ initDb_on (λ _, None) (initDb_on (λ _, None) Sample.old_schema).1
    = ((initDb_on (λ _, None) Sample.old_schema).1, None).
Proof.
  assert (Hok : (initDb_on (λ _, None) Sample.old_schema).2 = None)
    by (vm_compute; reflexivity).
  destruct (initDb_idempotent (λ _, None) Sample.old_schema Hok) as (_ & _ & Hagain).
  split; [exact Hok |].
  split; [vm_compute; reflexivity | exact Hagain].
Defined.

Example initDb_fresh_database :
  initDb_on (λ _, None) ∅
  = ({["users" := {["id"; "email"; "password"; "likes"; "playlists"]};
       "tracks" := {["id"; "title"; "artist"; "url"]}]}, None).
Proof. vm_compute. reflexivity. Qed.

Example isOwner_examples :
  isOwner (Some "ILove@You.com") = true ∧ isOwner (Some "ann@example.com") = false
  ∧ isOwner None = false.
Proof. vm_compute. repeat split; reflexivity. Qed.

(** ** The string and path primitives on examples *)

Example trim_ex : Js.trim "  Lofi Morning " = "Lofi Morning".
Proof. reflexivity. Qed.

Example trim_blank : Js.trim "   " = "".
Proof. reflexivity. Qed.

Example parseInt_ex : Js.parseInt " 42abc" = Some 42.
Proof. reflexivity. Qed.

Example parseInt_nan : Js.parseInt "abc" = None.
Proof. reflexivity. Qed.

Example parseInt_zero : Js.falsy_num (Js.parseInt "0") = true.
Proof. reflexivity. Qed.

Example replace_uploads :
  Js.replace_first "/uploads/" "uploads/" "/uploads/1_a.mp3" = "uploads/1_a.mp3".
Proof. reflexivity. Qed.

Example strip_slashes : Js.strip_trailing_slashes "https://x.supabase.co//" = "https://x.supabase.co".
Proof. reflexivity. Qed.

Example extname_mp3 : Path.extname "song.mp3" = ".mp3".
Proof. reflexivity. Qed.

Example extname_none : Path.extname "song" = "".
Proof. reflexivity. Qed.

Example extname_hidden : Path.extname ".bashrc" = "".
Proof. reflexivity. Qed.

Example extname_last : Path.extname "a.b.c" = ".c".
Proof. reflexivity. Qed.

Example extname_dotdot : Path.extname ".." = "".
Proof. reflexivity. Qed.

Example extname_trailing_dot : Path.extname "a." = ".".
Proof. reflexivity. Qed.

Example extname_dir : Path.extname "x.y/z" = "".
Proof. reflexivity. Qed.

Example basename_mp3 : Path.basename "song.mp3" ".mp3" = "song".
Proof. reflexivity. Qed.

Example basename_no_ext : Path.basename "song" ".mp3" = "song".
Proof. reflexivity. Qed.

Example basename_dir : Path.basename "../../etc/passwd" ".mp3" = "passwd".
Proof. reflexivity. Qed.

Example basename_only_ext : Path.basename ".mp3" ".mp3" = "".
Proof. reflexivity. Qed.

Example filename_plain : Multer.filename 1700000000000 "My Song (live).mp3"
                         = "1700000000000_My_Song__live_.mp3".
Proof. vm_compute. reflexivity. Qed.

Example filename_default_ext : Multer.filename 1700000000000 "demo" = "1700000000000_demo.mp3".
Proof. vm_compute. reflexivity. Qed.

Example filename_traversal : Multer.filename 5 "../../etc/passwd" = "5_passwd.mp3".
Proof. vm_compute. reflexivity. Qed.
Example trim_no_break_space :
  Js.trim (String (ascii_of_nat 160) "Lofi" ++ String (ascii_of_nat 160) "") = "Lofi"
  ∧ Js.trim (String (ascii_of_nat 160) "") = "".
Proof. split; reflexivity. Qed.

Example parseInt_no_break_space : Js.parseInt (String (ascii_of_nat 160) "7") = Some 7.
Proof. reflexivity. Qed.

Example toLowerCase_latin1 :
  Js.toLowerCase (String (ascii_of_nat 201) "VA@Example.com")
  = String (ascii_of_nat 233) "va@example.com"
  ∧ Js.toLowerCase (String (ascii_of_nat 215) "") = String (ascii_of_nat 215) "".
Proof. split; reflexivity. Qed.
